(** * run_kuzco_workers.py: a supervisor of worker processes

    A shallow embedding of [terminate_process], [run_worker],
    [signal_handler], [restart_all_workers] and [main].

    The program talks to the operating system (child processes, pipes,
    the clock, psutil) and to the Python runtime (threads, signals).  Both
    are taken as interfaces: a record of operations over an arbitrary world
    [W].  The program is written once against the interfaces, in a small
    monad that threads the world, keeps the history of every call with its
    answer, and carries Python's exceptions.  General statements quantify
    over every world; scenarios run on executable worlds defined below: a
    replayed script of answers, and a simulated machine with a clock, on
    which a simulated fleet of threads is built. *)

From Stdlib Require Import ZArith List String Ascii Bool Lia DecimalString.
Import ListNotations.
Open Scope string_scope.
Open Scope Z_scope.

Set Implicit Arguments.

(** ** Python values *)

Definition pid := Z.
Definition tid := nat.

(** Subclasses of [Exception] that the library calls raise; [str(e)] is the
    message. *)
Inductive exception :=
| NoSuchProcess (msg : string)
| OtherException (msg : string).

(** [KeyboardInterrupt] derives from [BaseException] only: an
    [except Exception] clause lets it through. *)
Inductive exn :=
| PyException (e : exception)
| KeyboardInterrupt.

Definition str_of_exception (e : exception) : string :=
  match e with NoSuchProcess m => m | OtherException m => m end.

(** What a library call that may fail gives back. *)
Inductive outcome (A : Type) :=
| Done (a : A)
| Fails (e : exception).
Arguments Fails {A} e.

(** [stdout.readline()]: a line (the empty string at end of file), an I/O
    error, or a read that never returns. *)
Inductive reads :=
| Line (s : string)
| ReadFails (e : exception)
| Blocked.

Inductive thread_status := NotStarted | Running | Finished.

Inductive handler := DefaultIntHandler | SignalHandler.

(** ** Strings: f-strings, [str.strip], [in] *)

Definition str_of_Z (z : Z) : string := NilZero.string_of_int (Z.to_int z).

Definition newline : string := String (ascii_of_nat 10) EmptyString.

Definition is_space (c : ascii) : bool :=
  let n := nat_of_ascii c in
  ((9 <=? n) && (n <=? 13) || (28 <=? n) && (n <=? 32))%nat.

Fixpoint lstrip (s : string) : string :=
  match s with
  | String c r => if is_space c then lstrip r else s
  | EmptyString => EmptyString
  end.

Fixpoint rstrip (s : string) : string :=
  match s with
  | String c r =>
      match rstrip r with
      | EmptyString => if is_space c then EmptyString else String c EmptyString
      | r' => String c r'
      end
  | EmptyString => EmptyString
  end.

Definition strip (s : string) : string := rstrip (lstrip s).

(** [needle in hay] *)
Fixpoint contains (needle hay : string) : bool :=
  if prefix needle hay then true
  else match hay with
       | String _ r => contains needle r
       | EmptyString => false
       end.

Definition nonempty (s : string) : bool :=
  match s with EmptyString => false | _ => true end.

(** [range(n)] *)
Definition range (n : Z) : list Z := map Z.of_nat (seq 0 (Z.to_nat n)).

(** ** Time: microseconds, the resolution of [datetime] *)

Definition timedelta_minutes (m : Z) : Z := m * 60000000.
Definition seconds (n : Z) : Z := n * 1000000.

(** ** The history of calls *)

(** A SIGINT keeps the calls of its handler to itself. *)
#[local] Set Warnings "-register-all".

Inductive event :=
| EvPrint (line : string)
| EvNow (t : Z)
| EvIsSet (b : bool)
| EvPopen (command : string) (r : outcome pid)
| EvPoll (p : pid) (returncode : option Z)
| EvReadline (p : pid) (r : reads)
| EvSleep (secs : Z)
| EvProcess (p : pid) (r : outcome unit)
| EvChildren (p : pid) (r : outcome (list pid))
| EvTerminate (p : pid) (r : outcome unit)
| EvWaitProcs (ps : list pid) (timeout : Z) (r : outcome (list pid * list pid))
| EvKill (p : pid) (r : outcome unit)
| EvSignalInstall (h : handler)
| EvSigint (handled : list event)
| EvFlagSet
| EvFlagClear
| EvThreadStart (worker_id : Z) (command : string) (silent : bool)
    (no_inference_timeout : Z) (t : tid)
| EvThreadJoin (t : tid) (returned : bool).

(** ** The interfaces *)

(** What a worker thread calls. *)
Record OS (W : Type) := {
  os_now : W -> Z * W;
  os_is_set : W -> bool * W;
  os_popen : string -> W -> outcome pid * W;
  os_poll : pid -> W -> option Z * W;
  os_readline : pid -> W -> reads * W;
  os_sleep : Z -> W -> W;
  os_print : string -> W -> W;
  ps_process : pid -> W -> outcome unit * W;
  ps_children : pid -> W -> outcome (list pid) * W;
  ps_terminate : pid -> W -> outcome unit * W;
  ps_wait_procs : list pid -> Z -> W -> outcome (list pid * list pid) * W;
  ps_kill : pid -> W -> outcome unit * W
}.

(** What the main thread calls.  [rt_join] answers [false] when the join
    never returns; [rt_sigints] tells how many SIGINT reached the process
    since it was last asked. *)
Record Runtime (W : Type) := {
  rt_print : string -> W -> W;
  rt_flag_set : W -> W;
  rt_flag_clear : W -> W;
  rt_start : Z -> string -> bool -> Z -> W -> tid * W;
  rt_join : tid -> W -> bool * W;
  rt_sleep : Z -> W -> W;
  rt_sigints : W -> nat * W;
  rt_status : tid -> W -> thread_status
}.

(** ** The monad *)

Record state (W : Type) := {
  world : W;
  hist : list event;
  on_sigint : handler
}.

(** How a call ends: it returns, it raises, it never returns, or the model
    ran out of fuel while a loop of the program was still turning. *)
Inductive res (A : Type) :=
| Ok (a : A)
| Raise (e : exn)
| Hang
| OutOfFuel.
Arguments Raise {A} e.
Arguments Hang {A}.
Arguments OutOfFuel {A}.

Definition M (W A : Type) := state W -> res A * state W.

Definition ret {W A} (a : A) : M W A := fun s => (Ok a, s).

Definition bind {W A B} (m : M W A) (k : A -> M W B) : M W B :=
  fun s =>
    match m s with
    | (Ok a, s') => k a s'
    | (Raise e, s') => (Raise e, s')
    | (Hang, s') => (Hang, s')
    | (OutOfFuel, s') => (OutOfFuel, s')
    end.

Definition raise {W A} (e : exn) : M W A := fun s => (Raise e, s).
Definition hang {W A} : M W A := fun s => (Hang, s).
Definition out_of_fuel {W A} : M W A := fun s => (OutOfFuel, s).

(** [try: m except ...: h e] *)
Definition try_except {W A} (m : M W A) (h : exn -> M W A) : M W A :=
  fun s =>
    match m s with
    | (Raise e, s') => h e s'
    | r => r
    end.

Declare Scope py_scope.
Delimit Scope py_scope with py.
Notation "x <- m ;; k" := (bind m (fun x => k))
  (at level 61, m at next level, right associativity) : py_scope.
Notation "m ;; k" := (bind m (fun _ => k))
  (at level 61, right associativity) : py_scope.
Open Scope py_scope.

(** [for x in xs: f x] *)
Fixpoint for_each {W A} (xs : list A) (f : A -> M W unit) : M W unit :=
  match xs with
  | [] => ret tt
  | x :: r => f x ;; for_each r f
  end.

Definition when {W} (b : bool) (m : M W unit) : M W unit :=
  if b then m else ret tt.

(** One call of an interface: the world moves, the call and its answer go
    to the history. *)
Definition call {W A} (op : W -> A * W) (ev : A -> event) : M W A :=
  fun s =>
    let (a, w) := op (world s) in
    (Ok a, {| world := w; hist := hist s ++ [ev a]; on_sigint := on_sigint s |}).

Definition lift {W A} (o : outcome A) : M W A :=
  match o with
  | Done a => ret a
  | Fails e => raise (PyException e)
  end.

(** The events added between two states. *)
Definition added {W} (s s' : state W) : list event :=
  skipn (List.length (hist s)) (hist s').

(** ** The worker thread: [terminate_process] and [run_worker] *)

Section Worker.

Context {W : Type}.
Variable os : OS W.

Definition print (line : string) : M W unit :=
  call (fun w => (tt, os_print os line w)) (fun _ => EvPrint line).

Definition datetime_now : M W Z := call (os_now os) EvNow.

Definition stop_flag_is_set : M W bool := call (os_is_set os) EvIsSet.

Definition Popen (command : string) : M W pid :=
  r <- call (os_popen os command) (EvPopen command) ;; lift r.

Definition process_poll (p : pid) : M W (option Z) :=
  call (os_poll os p) (EvPoll p).

Definition stdout_readline (p : pid) : M W string :=
  r <- call (os_readline os p) (EvReadline p) ;;
  match r with
  | Line s => ret s
  | ReadFails e => raise (PyException e)
  | Blocked => hang
  end.

Definition time_sleep (secs : Z) : M W unit :=
  call (fun w => (tt, os_sleep os secs w)) (fun _ => EvSleep secs).

Definition psutil_Process (p : pid) : M W pid :=
  r <- call (ps_process os p) (EvProcess p) ;; lift r ;; ret p.

Definition proc_children (p : pid) : M W (list pid) :=
  r <- call (ps_children os p) (EvChildren p) ;; lift r.

Definition proc_terminate (p : pid) : M W unit :=
  r <- call (ps_terminate os p) (EvTerminate p) ;; lift r.

Definition wait_procs (ps : list pid) (timeout : Z) : M W (list pid * list pid) :=
  r <- call (ps_wait_procs os ps timeout) (EvWaitProcs ps timeout) ;; lift r.

Definition proc_kill (p : pid) : M W unit :=
  r <- call (ps_kill os p) (EvKill p) ;; lift r.

Definition worker_tag (worker_id : Z) : string :=
  "Worker " ++ str_of_Z worker_id ++ ": ".

(** Lines 18-32, the body of the [try]. *)
Definition terminate_tree (proc : pid) (worker_id : Z) : M W unit :=
  parent <- psutil_Process proc ;;
  children <- proc_children parent ;;
  for_each children proc_terminate ;;
  proc_terminate parent ;;
  gone_alive <- wait_procs (children ++ [parent]) 3 ;;
  for_each (snd gone_alive) (fun p =>
    print (worker_tag worker_id ++ "Force killing process " ++ str_of_Z p) ;;
    proc_kill p).

(** Lines 11-39. *)
Definition terminate_process (process : option pid) (worker_id : Z) : M W unit :=
  match process with
  | None => ret tt
  | Some proc =>
      print (worker_tag worker_id ++ "Terminating process...") ;;
      try_except (terminate_tree proc worker_id)
        (fun e =>
           match e with
           | PyException (NoSuchProcess _) =>
               print (worker_tag worker_id ++ "Process already terminated")
           | PyException (OtherException msg) =>
               print (worker_tag worker_id
                        ++ "Error while terminating process - " ++ msg)
           | KeyboardInterrupt => raise e
           end) ;;
      print (worker_tag worker_id ++ "Process termination completed")
  end.

(** The two variables of [run_worker]. *)
Record locals := {
  process : option pid;
  last_inference_time : Z
}.

(** Lines 51-52. *)
Definition spawn (command : string) : M W (pid * Z) :=
  p <- Popen command ;;
  t <- datetime_now ;;
  ret (p, t).

(** Lines 46-52: the child to read from, and the liveness time. *)
Definition ensure_process (command : string) (worker_id : Z) (l : locals)
  : M W (pid * Z) :=
  match process l with
  | None => spawn command
  | Some p =>
      rc <- process_poll p ;;
      match rc with
      | None => ret (p, last_inference_time l)
      | Some _ =>
          print (worker_tag worker_id ++ "Restarting") ;;
          terminate_process (Some p) worker_id ;;
          spawn command
      end
  end.

Definition stall_message (worker_id no_inference_timeout : Z) : string :=
  worker_tag worker_id ++ "No inference finished for "
    ++ str_of_Z no_inference_timeout ++ " minutes. Restarting...".

(** Lines 56-71, the body of the [try]. *)
Definition read_output (worker_id : Z) (silent : bool)
  (no_inference_timeout : Z) (p : pid) (lit : Z) : M W locals :=
  output <- stdout_readline p ;;
  if nonempty output then
    when (negb silent) (print (worker_tag worker_id ++ strip output)) ;;
    if contains "Inference finished" output then
      t <- datetime_now ;;
      ret {| process := Some p; last_inference_time := t |}
    else ret {| process := Some p; last_inference_time := lit |}
  else
    rc <- process_poll p ;;
    match rc with
    | None =>
        t <- datetime_now ;;
        if t - lit >? timedelta_minutes no_inference_timeout then
          print (stall_message worker_id no_inference_timeout) ;;
          terminate_process (Some p) worker_id ;;
          t' <- datetime_now ;;
          ret {| process := None; last_inference_time := t' |}
        else ret {| process := Some p; last_inference_time := lit |}
    | Some _ => ret {| process := Some p; last_inference_time := lit |}
    end.

(** Lines 54-77.  Inside the [try] only [readline] raises, before any
    assignment, so the handler finds the variables as they were. *)
Definition read_step (worker_id : Z) (silent : bool)
  (no_inference_timeout : Z) (p : pid) (lit : Z) : M W locals :=
  try_except (read_output worker_id silent no_inference_timeout p lit)
    (fun e =>
       match e with
       | PyException ex =>
           print (worker_tag worker_id ++ "Error - " ++ str_of_exception ex
                    ++ ". Restarting...") ;;
           terminate_process (Some p) worker_id ;;
           time_sleep 5 ;;
           ret {| process := None; last_inference_time := lit |}
       | KeyboardInterrupt => raise e
       end).

(** Lines 46-77, one turn of the [while]. *)
Definition iteration (command : string) (worker_id : Z) (silent : bool)
  (no_inference_timeout : Z) (l : locals) : M W locals :=
  pl <- ensure_process command worker_id l ;;
  read_step worker_id silent no_inference_timeout (fst pl) (snd pl).

(** Lines 45-77; [fuel] bounds the number of turns. *)
Fixpoint worker_loop (fuel : nat) (command : string) (worker_id : Z)
  (silent : bool) (no_inference_timeout : Z) (l : locals) : M W locals :=
  match fuel with
  | O => out_of_fuel
  | S k =>
      stop <- stop_flag_is_set ;;
      if stop then ret l
      else
        l' <- iteration command worker_id silent no_inference_timeout l ;;
        worker_loop k command worker_id silent no_inference_timeout l'
  end.

(** Lines 41-81. *)
Definition run_worker (fuel : nat) (command : string) (worker_id : Z)
  (silent : bool) (no_inference_timeout : Z) : M W unit :=
  t0 <- datetime_now ;;
  l <- worker_loop fuel command worker_id silent no_inference_timeout
         {| process := None; last_inference_time := t0 |} ;;
  match process l with
  | Some p =>
      print (worker_tag worker_id ++ "Stopping") ;;
      terminate_process (Some p) worker_id
  | None => ret tt
  end.

End Worker.

(** ** The main thread: [signal_handler], [restart_all_workers], [main] *)

Section Supervisor.

Context {W : Type}.
Variable rt : Runtime W.

Definition flag_set_now : M W unit :=
  call (fun w => (tt, rt_flag_set rt w)) (fun _ => EvFlagSet).

Definition print_now (line : string) : M W unit :=
  call (fun w => (tt, rt_print rt line w)) (fun _ => EvPrint line).

(** Lines 83-85. *)
Definition signal_handler : M W unit :=
  print_now (newline ++ "Ctrl+C pressed. Stopping all workers...") ;;
  flag_set_now.

(** The function Python runs in the main thread when SIGINT arrives: the
    one installed by [signal.signal], or else [default_int_handler], which
    raises [KeyboardInterrupt]. *)
Definition run_handler : M W unit :=
  fun s =>
    match on_sigint s with
    | DefaultIntHandler => raise KeyboardInterrupt s
    | SignalHandler => signal_handler s
    end.

(** One SIGINT: what the handler did is kept apart in the history. *)
Definition sigint : M W unit :=
  fun s =>
    let (r, s') := run_handler {| world := world s; hist := []; on_sigint := on_sigint s |} in
    (r, {| world := world s';
           hist := hist s ++ [EvSigint (hist s')];
           on_sigint := on_sigint s' |}).

Fixpoint deliver (k : nat) : M W unit :=
  match k with
  | O => ret tt
  | S k' => sigint ;; deliver k'
  end.

Definition check_signals : M W unit :=
  fun s =>
    let (k, w) := rt_sigints rt (world s) in
    deliver k {| world := w; hist := hist s; on_sigint := on_sigint s |}.

(** A call made by the main thread: the signals that arrived meanwhile are
    handled before the program goes on. *)
Definition on_main {A} (m : M W A) : M W A :=
  a <- m ;; check_signals ;; ret a.

Definition signal_signal (h : handler) : M W unit :=
  on_main (fun s =>
    (Ok tt, {| world := world s;
               hist := hist s ++ [EvSignalInstall h];
               on_sigint := h |})).

Definition main_print (line : string) : M W unit := on_main (print_now line).

Definition stop_flag_set : M W unit := on_main flag_set_now.

Definition stop_flag_clear : M W unit :=
  on_main (call (fun w => (tt, rt_flag_clear rt w)) (fun _ => EvFlagClear)).

Definition main_sleep (secs : Z) : M W unit :=
  on_main (call (fun w => (tt, rt_sleep rt secs w)) (fun _ => EvSleep secs)).

(** [Thread(target=run_worker, args=(...)).start()] *)
Definition thread_start (worker_id : Z) (command : string) (silent : bool)
  (no_inference_timeout : Z) : M W tid :=
  on_main (call (rt_start rt worker_id command silent no_inference_timeout)
             (EvThreadStart worker_id command silent no_inference_timeout)).

(** [thread.join()], without a timeout. *)
Definition thread_join (t : tid) : M W unit :=
  joined <- on_main (call (rt_join rt t) (EvThreadJoin t)) ;;
  if joined then ret tt else hang.

(** Lines 94-99 and lines 115-120: the same loop. *)
Fixpoint start_workers (ids : list Z) (command : string) (silent : bool)
  (no_inference_timeout : Z) (new_threads : list tid) : M W (list tid) :=
  match ids with
  | [] => ret new_threads
  | i :: r =>
      thread <- thread_start i command silent no_inference_timeout ;;
      main_sleep 1 ;;
      start_workers r command silent no_inference_timeout (new_threads ++ [thread])
  end.

(** Lines 88-92. *)
Definition stop_all_workers (threads : list tid) : M W unit :=
  main_print "Restarting all workers..." ;;
  stop_flag_set ;;
  for_each threads thread_join ;;
  stop_flag_clear.

(** Lines 87-100. *)
Definition restart_all_workers (threads : list tid) (command : string)
  (silent : bool) (no_inference_timeout : Z) : M W (list tid) :=
  stop_all_workers threads ;;
  start_workers (range (Z.of_nat (List.length threads)))
    command silent no_inference_timeout [].

(** Lines 127-132, the [except KeyboardInterrupt] block. *)
Definition shutdown (threads : list tid) (silent : bool) : M W unit :=
  main_print "Stopping all workers..." ;;
  stop_flag_set ;;
  for_each threads thread_join ;;
  when (negb silent) (main_print "All workers have finished").

Record arguments := {
  command : string;
  instances : Z;
  silent : bool;
  no_inference_timeout : Z
}.

(** [None] when [m] raised [KeyboardInterrupt]. *)
Definition interruptible {A} (m : M W A) : M W (option A) :=
  try_except (a <- m ;; ret (Some a))
    (fun e =>
       match e with
       | KeyboardInterrupt => ret None
       | PyException _ => raise e
       end).

(** Lines 122-132.  The [except] block leaves the loop, so guarding every
    turn is guarding the loop; [threads] is the list last assigned. *)
Fixpoint main_loop (fuel : nat) (args : arguments) (threads : list tid)
  : M W unit :=
  match fuel with
  | O => out_of_fuel
  | S k =>
      r <- interruptible
             (main_sleep 300 ;;
              restart_all_workers threads (command args) (silent args)
                (no_inference_timeout args)) ;;
      match r with
      | Some threads' => main_loop k args threads'
      | None => shutdown threads (silent args)
      end
  end.

(** Lines 110-120. *)
Definition main_startup (args : arguments) : M W (list tid) :=
  signal_signal SignalHandler ;;
  when (negb (silent args))
    (main_print ("Starting " ++ str_of_Z (instances args) ++ " workers")) ;;
  start_workers (range (instances args)) (command args) (silent args)
    (no_inference_timeout args) [].

(** Lines 110-132; [fuel] bounds the number of 5-minute turns. *)
Definition main (fuel : nat) (args : arguments) : M W unit :=
  threads <- main_startup args ;;
  main_loop fuel args threads.

End Supervisor.

(** ** A world that replays a script

    Every call takes the next answer of the script when it is an answer to
    that kind of call, and a fixed answer otherwise. *)

Inductive reply :=
| SaysNow (t : Z)
| SaysFlag (b : bool)
| SaysPopen (r : outcome pid)
| SaysPoll (returncode : option Z)
| SaysRead (r : reads)
| SaysProcess (r : outcome unit)
| SaysChildren (r : outcome (list pid))
| SaysSignal (r : outcome unit)
| SaysWait (r : outcome (list pid * list pid)).

Definition script := list reply.

Definition next {A} (pick : reply -> option A) (default : A) (sc : script)
  : A * script :=
  match sc with
  | r :: rest =>
      match pick r with
      | Some a => (a, rest)
      | None => (default, sc)
      end
  | [] => (default, sc)
  end.

Definition Replay : OS script := {|
  os_now := next (fun r => match r with SaysNow t => Some t | _ => None end) 0;
  os_is_set := next (fun r => match r with SaysFlag b => Some b | _ => None end) true;
  os_popen := fun _ =>
    next (fun r => match r with SaysPopen o => Some o | _ => None end)
      (Fails (OtherException "no answer"));
  os_poll := fun _ =>
    next (fun r => match r with SaysPoll o => Some o | _ => None end) (Some 0);
  os_readline := fun _ =>
    next (fun r => match r with SaysRead o => Some o | _ => None end) Blocked;
  os_sleep := fun _ sc => sc;
  os_print := fun _ sc => sc;
  ps_process := fun _ =>
    next (fun r => match r with SaysProcess o => Some o | _ => None end)
      (Fails (NoSuchProcess "no answer"));
  ps_children := fun _ =>
    next (fun r => match r with SaysChildren o => Some o | _ => None end) (Done []);
  ps_terminate := fun _ =>
    next (fun r => match r with SaysSignal o => Some o | _ => None end) (Done tt);
  ps_wait_procs := fun ps _ =>
    next (fun r => match r with SaysWait o => Some o | _ => None end) (Done ([], ps));
  ps_kill := fun _ =>
    next (fun r => match r with SaysSignal o => Some o | _ => None end) (Done tt)
|}.

Definition start_state {W} (w : W) : state W :=
  {| world := w; hist := []; on_sigint := SignalHandler |}.

(** ** A simulated machine with a clock

    One worker thread and the processes it spawns.  Time passes only in the
    calls that wait: a read waits for the next line or for the end of the
    stream, [sleep] for its argument, [wait_procs] for its processes.
    Descendants of a child are not simulated: [children] lists none. *)

Record proc := {
  p_out : list (Z * string);   (* lines not yet read, each with the moment it is written *)
  p_eof : option Z;            (* the moment the stream ends; never, when None *)
  p_end : option (Z * Z);      (* the moment the process ends, and its return code *)
  p_reaped : bool;             (* its exit status has been collected *)
  p_stubborn : bool            (* it ignores SIGTERM *)
}.

Record machine := {
  clock : Z;
  stop_from : option Z;        (* since when [stop_flag] is set *)
  first_pid : Z;
  procs : list proc            (* a pid is [first_pid] plus the position *)
}.

Definition ended (pr : proc) (t : Z) : bool :=
  match p_end pr with
  | Some (e, _) => e <=? t
  | None => false
  end.

Definition find_proc (m : machine) (p : pid) : option proc :=
  if p <? first_pid m then None
  else nth_error (procs m) (Z.to_nat (p - first_pid m)).

Fixpoint update_nth {A} (n : nat) (f : A -> A) (l : list A) : list A :=
  match l, n with
  | [], _ => []
  | x :: r, O => f x :: r
  | x :: r, S k => x :: update_nth k f r
  end.

Definition with_clock (t : Z) (m : machine) : machine :=
  {| clock := t; stop_from := stop_from m; first_pid := first_pid m; procs := procs m |}.

Definition update_proc (p : pid) (f : proc -> proc) (m : machine) : machine :=
  {| clock := clock m; stop_from := stop_from m; first_pid := first_pid m;
     procs := update_nth (Z.to_nat (p - first_pid m)) f (procs m) |}.

Definition reap (pr : proc) : proc :=
  {| p_out := p_out pr; p_eof := p_eof pr; p_end := p_end pr;
     p_reaped := true; p_stubborn := p_stubborn pr |}.

Definition end_at (t code : Z) (pr : proc) : proc :=
  {| p_out := p_out pr; p_eof := p_eof pr; p_end := Some (t, code);
     p_reaped := p_reaped pr; p_stubborn := p_stubborn pr |}.

Definition drop_line (pr : proc) : proc :=
  {| p_out := tl (p_out pr); p_eof := p_eof pr; p_end := p_end pr;
     p_reaped := p_reaped pr; p_stubborn := p_stubborn pr |}.

(** A process psutil can still see. *)
Definition visible (m : machine) (p : pid) : option proc :=
  match find_proc m p with
  | Some pr => if p_reaped pr then None else Some pr
  | None => None
  end.

Definition gone_message : string := "process no longer exists".

Definition sim_signal (code : Z) (obeyed : proc -> bool) (p : pid) (m : machine)
  : outcome unit * machine :=
  match visible m p with
  | None => (Fails (NoSuchProcess gone_message), m)
  | Some pr =>
      if ended pr (clock m) || negb (obeyed pr) then (Done tt, m)
      else (Done tt, update_proc p (end_at (clock m) code) m)
  end.

Definition ended_by (m : machine) (t : Z) (p : pid) : bool :=
  match find_proc m p with
  | Some pr => ended pr t
  | None => true
  end.

Definition end_time (m : machine) (p : pid) : Z :=
  match find_proc m p with
  | Some pr => match p_end pr with Some (e, _) => e | None => 0 end
  | None => 0
  end.

Definition sim_wait_procs (ps : list pid) (timeout : Z) (m : machine)
  : outcome (list pid * list pid) * machine :=
  let deadline := clock m + seconds timeout in
  let gone := filter (ended_by m deadline) ps in
  let alive := filter (fun p => negb (ended_by m deadline p)) ps in
  let t := match alive with
           | [] => fold_left Z.max (map (end_time m) gone) (clock m)
           | _ => deadline
           end in
  (Done (gone, alive),
   with_clock t (fold_left (fun m' p => update_proc p reap m') gone m)).

Section Simulation.

(** How a command behaves when it is started at a given moment. *)
Variable program : string -> Z -> proc.

Definition Machine : OS machine := {|
  os_now := fun m => (clock m, m);
  os_is_set := fun m =>
    (match stop_from m with Some t => t <=? clock m | None => false end, m);
  os_popen := fun command m =>
    (Done (first_pid m + Z.of_nat (List.length (procs m))),
     {| clock := clock m; stop_from := stop_from m; first_pid := first_pid m;
        procs := procs m ++ [program command (clock m)] |});
  os_poll := fun p m =>
    match find_proc m p with
    | Some pr =>
        match p_end pr with
        | Some (e, code) =>
            if e <=? clock m then (Some code, update_proc p reap m) else (None, m)
        | None => (None, m)
        end
    | None => (None, m)
    end;
  os_readline := fun p m =>
    match find_proc m p with
    | Some pr =>
        match p_out pr with
        | (t, line) :: _ =>
            (Line line, with_clock (Z.max (clock m) t) (update_proc p drop_line m))
        | [] =>
            match p_eof pr with
            | Some t => (Line EmptyString, with_clock (Z.max (clock m) t) m)
            | None => (Blocked, m)
            end
        end
    | None => (Blocked, m)
    end;
  os_sleep := fun secs m => with_clock (clock m + seconds secs) m;
  os_print := fun _ m => m;
  ps_process := fun p m =>
    match visible m p with
    | Some _ => (Done tt, m)
    | None => (Fails (NoSuchProcess gone_message), m)
    end;
  ps_children := fun p m =>
    match visible m p with
    | Some _ => (Done [], m)
    | None => (Fails (NoSuchProcess gone_message), m)
    end;
  ps_terminate := sim_signal (-15) (fun pr => negb (p_stubborn pr));
  ps_wait_procs := sim_wait_procs;
  ps_kill := sim_signal (-9) (fun _ => true)
|}.

(** The main thread and its worker threads.  A join runs the worker of
    the thread on a machine of its own, from the moment the thread was
    started, with the flag set since [f_stop_from]; it returns when the
    worker returned or died, at the moment it did, and never when the worker
    is blocked in a read (or still turning after [worker_fuel] turns). *)

Record thread := {
  th_worker_id : Z;
  th_command : string;
  th_silent : bool;
  th_timeout : Z;
  th_started : Z;
  th_joined : bool;
  th_hist : list event
}.

Record fleet := {
  f_clock : Z;
  f_stop_from : option Z;
  f_threads : list thread;
  f_sigints : list Z           (* the moments at which SIGINT arrives, ascending *)
}.

Variable worker_fuel : nat.

Definition run_thread (f : fleet) (th : thread) : res unit * state machine :=
  run_worker Machine worker_fuel (th_command th) (th_worker_id th) (th_silent th)
    (th_timeout th)
    (start_state {| clock := th_started th; stop_from := f_stop_from f;
                    first_pid := 1000 * (th_worker_id th + 1); procs := [] |}).

Definition joined_thread (th : thread) (h : list event) (done : bool) : thread :=
  {| th_worker_id := th_worker_id th; th_command := th_command th;
     th_silent := th_silent th; th_timeout := th_timeout th;
     th_started := th_started th; th_joined := done; th_hist := h |}.

Definition sim_join (t : tid) (f : fleet) : bool * fleet :=
  match nth_error (f_threads f) t with
  | None => (false, f)
  | Some th =>
      let (r, s) := run_thread f th in
      let done := match r with Ok _ | Raise _ => true | _ => false end in
      (done,
       {| f_clock := if done then Z.max (f_clock f) (clock (world s)) else f_clock f;
          f_stop_from := f_stop_from f;
          f_threads := update_nth t (fun th' => joined_thread th' (hist s) (th_joined th' || done))
                         (f_threads f);
          f_sigints := f_sigints f |})
  end.

Definition Fleet : Runtime fleet := {|
  rt_print := fun _ f => f;
  rt_flag_set := fun f =>
    {| f_clock := f_clock f;
       f_stop_from := match f_stop_from f with
                      | Some t => Some t
                      | None => Some (f_clock f)
                      end;
       f_threads := f_threads f; f_sigints := f_sigints f |};
  rt_flag_clear := fun f =>
    {| f_clock := f_clock f; f_stop_from := None;
       f_threads := f_threads f; f_sigints := f_sigints f |};
  rt_start := fun worker_id command silent timeout f =>
    (List.length (f_threads f),
     {| f_clock := f_clock f; f_stop_from := f_stop_from f;
        f_threads := f_threads f ++
          [{| th_worker_id := worker_id; th_command := command;
              th_silent := silent; th_timeout := timeout;
              th_started := f_clock f; th_joined := false; th_hist := [] |}];
        f_sigints := f_sigints f |});
  rt_join := sim_join;
  rt_sleep := fun secs f =>
    {| f_clock := f_clock f + seconds secs; f_stop_from := f_stop_from f;
       f_threads := f_threads f; f_sigints := f_sigints f |};
  rt_sigints := fun f =>
    (List.length (filter (fun t => t <=? f_clock f) (f_sigints f)),
     {| f_clock := f_clock f; f_stop_from := f_stop_from f;
        f_threads := f_threads f;
        f_sigints := filter (fun t => negb (t <=? f_clock f)) (f_sigints f) |});
  rt_status := fun t f =>
    match nth_error (f_threads f) t with
    | None => NotStarted
    | Some th => if th_joined th then Finished else Running
    end
|}.

End Simulation.

(** ** The commands of the scenarios

    [sh -c "echo A; sleep 600"] writes one line at once; [sleep] keeps the
    pipe open, so the stream ends when it exits, 600 seconds later, and the
    shell with it.  [sleep infinity] writes nothing and never exits.  Any
    other command is taken as one the shell does not find: it ends at
    once with status 127. *)

Definition echo_sleep : string := "echo A; sleep 600".
Definition sleep_forever : string := "sleep infinity".

Definition shell (command : string) (t : Z) : proc :=
  if String.eqb command echo_sleep then
    {| p_out := [(t, "A" ++ newline)];
       p_eof := Some (t + seconds 600);
       p_end := Some (t + seconds 600, 0);
       p_reaped := false; p_stubborn := false |}
  else if String.eqb command sleep_forever then
    {| p_out := []; p_eof := None; p_end := None;
       p_reaped := false; p_stubborn := false |}
  else
    {| p_out := []; p_eof := Some t; p_end := Some (t, 127);
       p_reaped := false; p_stubborn := false |}.

(** A worker thread about to start at moment [t], on a machine where the
    flag is set from [stop] on. *)
Definition boot (t first : Z) (stop : option Z) : state machine :=
  start_state {| clock := t; stop_from := stop; first_pid := first; procs := [] |}.

(** What a worker of the scenario does in its whole life, when its one child
    is [p]: it starts at [t0], the restart sets the flag at 302 seconds. *)
Definition scenario_run (worker_id : Z) (p : pid) (t0 : Z) : list event :=
  [EvNow t0; EvIsSet false;
   EvPopen echo_sleep (Done p); EvNow t0;
   EvReadline p (Line ("A" ++ newline));
   EvPrint (worker_tag worker_id ++ "A");
   EvIsSet false; EvPoll p None;
   EvReadline p (Line EmptyString); EvPoll p (Some 0);
   EvIsSet true;
   EvPrint (worker_tag worker_id ++ "Stopping");
   EvPrint (worker_tag worker_id ++ "Terminating process...");
   EvProcess p (Fails (NoSuchProcess gone_message));
   EvPrint (worker_tag worker_id ++ "Process already terminated");
   EvPrint (worker_tag worker_id ++ "Process termination completed")].

Definition fleet_boot (sigints : list Z) : state fleet :=
  {| world := {| f_clock := 0; f_stop_from := None; f_threads := [];
                 f_sigints := sigints |};
     hist := [];
     on_sigint := DefaultIntHandler |}.

(** The fleets of the scenarios: two workers on ["echo A; sleep 600"] with a
    stall timeout of one minute, and one worker on a child that hangs. *)
Definition scenario_args : arguments :=
  {| command := echo_sleep; instances := 2; silent := false;
     no_inference_timeout := 1 |}.


Definition Sim : Runtime fleet := Fleet shell 10.

(** The main thread when its first sleep of 300 seconds has ended. *)
Definition first_tick (args : arguments) (sigints : list Z) : state fleet :=
  snd ((main_startup Sim args ;; main_sleep Sim 300) (fleet_boot sigints)).

(** A child that keeps writing: for each of its lines, with the moment the
    clock shows if it is read then, the script answers that the flag is
    clear, that the child is alive, and the line to the read. *)
Definition chatter (lines : list (string * Z)) : script :=
  flat_map (fun lt =>
    ([SaysFlag false; SaysPoll None; SaysRead (Line (fst lt))]
     ++ (if contains "Inference finished" (fst lt) then [SaysNow (snd lt)] else []))%list)
    lines.

(** The calls of the turn of the loop that reads one such line. *)
Definition chatter_turn (worker_id : Z) (silent : bool) (p : pid)
  (lt : string * Z) : list event :=
  ([EvIsSet false; EvPoll p None; EvReadline p (Line (fst lt))]
   ++ (if silent then [] else [EvPrint (worker_tag worker_id ++ strip (fst lt))])
   ++ (if contains "Inference finished" (fst lt) then [EvNow (snd lt)] else []))%list.

(** ** Vocabulary of the statements *)

(** What [terminate_process] prints for the exception it absorbs. *)
Definition absorbed (worker_id : Z) (r : res unit) : list event :=
  match r with
  | Raise (PyException (NoSuchProcess _)) =>
      [EvPrint (worker_tag worker_id ++ "Process already terminated")]
  | Raise (PyException (OtherException msg)) =>
      [EvPrint (worker_tag worker_id ++ "Error while terminating process - " ++ msg)]
  | _ => []
  end.



(** A call that returned or raised an [Exception]. *)
Definition benign {A} (r : res A) : Prop :=
  match r with
  | Ok _ | Raise (PyException _) => True
  | _ => False
  end.

Definition Benign {W A} (m : M W A) : Prop := forall s, benign (fst (m s)).

(** A call that always returns. *)
Definition Returns {W A} (m : M W A) : Prop :=
  forall s, exists a s', m s = (Ok a, s').

(** A call that returned or never returns. *)
Definition calm {A} (r : res A) : Prop :=
  match r with
  | Ok _ | Hang => True
  | _ => False
  end.

Definition is_sigint (e : event) : bool :=
  match e with EvSigint _ => true | _ => false end.

(** The calls of the program itself, the handlers of signals left out. *)
Definition own (h : list event) : list event :=
  filter (fun e => negb (is_sigint e)) h.

(** A call that sends a signal to a process. *)
Fixpoint signals_process (e : event) : bool :=
  match e with
  | EvTerminate _ _ | EvKill _ _ => true
  | EvSigint h => existsb signals_process h
  | _ => false
  end.

Definition joins (threads : list tid) : list event :=
  map (fun t => EvThreadJoin t true) threads.

(** Worker [i] is started as thread [t], then the main thread sleeps one
    second. *)
Definition start_of (command : string) (silent : bool) (timeout : Z)
  (it : Z * tid) : list event :=
  [EvThreadStart (fst it) command silent timeout (snd it); EvSleep 1].

Definition starts (command : string) (silent : bool) (timeout : Z)
  (ids : list Z) (threads : list tid) : list event :=
  flat_map (start_of command silent timeout) (combine ids threads).

(** One call of the runtime moves the world. *)
Inductive rt_step {W} (rt : Runtime W) : W -> W -> Prop :=
| step_print : forall line w, rt_step rt w (rt_print rt line w)
| step_flag_set : forall w, rt_step rt w (rt_flag_set rt w)
| step_flag_clear : forall w, rt_step rt w (rt_flag_clear rt w)
| step_start : forall i c sl tm w,
    rt_step rt w (snd (rt_start rt i c sl tm w))
| step_join : forall t w, rt_step rt w (snd (rt_join rt t w))
| step_sleep : forall secs w, rt_step rt w (rt_sleep rt secs w)
| step_sigints : forall w, rt_step rt w (snd (rt_sigints rt w)).

Inductive rt_steps {W} (rt : Runtime W) : W -> W -> Prop :=
| steps_refl : forall w, rt_steps rt w w
| steps_cons : forall w1 w2 w3,
    rt_step rt w1 w2 -> rt_steps rt w2 w3 -> rt_steps rt w1 w3.

(** Python's threads: a join that returns leaves the thread finished, and a
    finished thread stays so. *)
Record thread_laws {W} (rt : Runtime W) : Prop := {
  join_finishes : forall t w w',
    rt_join rt t w = (true, w') -> rt_status rt t w' = Finished;
  finished_stays : forall t w w',
    rt_step rt w w' -> rt_status rt t w = Finished -> rt_status rt t w' = Finished
}.

Definition all_finished {W} (rt : Runtime W) (threads : list tid) (w : W) : Prop :=
  Forall (fun t => rt_status rt t w = Finished) threads.

(** What [signal_handler] leaves in the history for one SIGINT. *)
Definition handled : event :=
  EvSigint [EvPrint (newline ++ "Ctrl+C pressed. Stopping all workers...");
            EvFlagSet].

(** From [s] to [s'] the main thread made the calls [evs]; every SIGINT in
    between was handled by [signal_handler], which is still installed. *)
Record tidy {W} (rt : Runtime W) (s s' : state W) (evs : list event) : Prop := {
  tidy_handler : on_sigint s' = SignalHandler;
  tidy_world : rt_steps rt (world s) (world s');
  tidy_hist : exists h,
    hist s' = (hist s ++ h)%list /\ own h = evs
    /\ Forall (fun e => is_sigint e = true -> e = handled) h
}.

(** The state one call leaves. *)
Definition after {W} (s : state W) (w : W) (evs : list event) : state W :=
  {| world := w; hist := hist s ++ evs; on_sigint := on_sigint s |}.

(** ** Monitors of the history

    A monitor reads the calls one by one and keeps a state; it gives up
    ([None]) at the first call it does not allow. *)

Section Monitor.

Variable Q : Type.
Variable step : Q -> event -> option Q.

Fixpoint watch (q : Q) (h : list event) : option Q :=
  match h with
  | [] => Some q
  | e :: r =>
      match step q e with
      | Some q' => watch q' r
      | None => None
      end
  end.

(** Started in state [q], the monitor allows every call that [m] adds to
    the history, and ends in a state that [post] relates to the way [m]
    ends. *)
Definition tracks {W A} (q : Q) (m : M W A) (post : res A -> Q -> Prop) : Prop :=
  forall s, exists h q',
    hist (snd (m s)) = (hist s ++ h)%list
    /\ watch q h = Some q'
    /\ post (fst (m s)) q'.

End Monitor.

(** A call that leaves the monitor where it is, and returns or raises an
    [Exception]. *)
Definition stays {Q A} (q : Q) (r : res A) (q' : Q) : Prop := q' = q /\ benign r.

(** A call that leaves the monitor where it is, and returns. *)
Definition passes {Q A} (q : Q) (r : res A) (q' : Q) : Prop :=
  q' = q /\ exists a, r = Ok a.

Fixpoint same_pids (a b : list pid) : bool :=
  match a, b with
  | [], [] => true
  | x :: a', y :: b' => (x =? y) && same_pids a' b'
  | _, _ => false
  end.

(** Where [terminate_process] stands in its protocol on process [p]:
    before [psutil.Process], before the enumeration, signalling the children
    still in [todo] (then the parent), before the wait, killing the survivors
    still in [todo], or over: the protocol is finished, or a call failed. *)
Inductive phase :=
| Lookup
| Enumerate
| Signal (todo children : list pid)
| Wait (children : list pid)
| Kill (todo : list pid)
| Over.

Definition if_done {A} (r : outcome A) (next : A -> phase) : option phase :=
  match r with
  | Done a => Some (next a)
  | Fails _ => Some Over
  end.

Definition tree_step (p : pid) (q : phase) (e : event) : option phase :=
  match e, q with
  | EvPrint _, _ => Some q
  | EvProcess p' r, Lookup =>
      if p' =? p then if_done r (fun _ => Enumerate) else None
  | EvChildren p' r, Enumerate =>
      if p' =? p then if_done r (fun cs => Signal cs cs) else None
  | EvTerminate c r, Signal (c' :: todo) cs =>
      if c =? c' then if_done r (fun _ => Signal todo cs) else None
  | EvTerminate c r, Signal [] cs =>
      if c =? p then if_done r (fun _ => Wait cs) else None
  | EvWaitProcs ps timeout r, Wait cs =>
      if same_pids ps (cs ++ [p]) && (timeout =? 3)
      then if_done r (fun ga => Kill (snd ga)) else None
  | EvKill c r, Kill (c' :: todo) =>
      if c =? c' then if_done r (fun _ => Kill todo) else None
  | _, _ => None
  end.

(** The phase after a call that may fail: [next] when it returned, [Over]
    when it raised. *)
Definition advance {A} (next : A -> phase) (r : res A) (q : phase) : Prop :=
  match r with
  | Ok a => q = next a
  | Raise (PyException _) => q = Over
  | _ => False
  end.

(** The calls [terminate_process] makes after [psutil.Process]. *)
Definition is_tree_call (e : event) : bool :=
  match e with
  | EvPrint _ | EvChildren _ _ | EvTerminate _ _ | EvWaitProcs _ _ _
  | EvKill _ _ => true
  | _ => false
  end.

(** The child a worker holds.  A successful [Popen] is allowed only when it
    holds none, and gives it one; [poll] and [readline] are allowed only on
    the child it holds; [psutil.Process], the first call of
    [terminate_process], is allowed only on that child too, and takes it
    away. *)
Definition own_step (held : option pid) (e : event) : option (option pid) :=
  match e with
  | EvPopen _ (Done p) =>
      match held with
      | None => Some (Some p)
      | Some _ => None
      end
  | EvPoll p _ | EvReadline p _ =>
      match held with
      | Some q => if q =? p then Some held else None
      | None => None
      end
  | EvProcess p _ =>
      match held with
      | Some q => if q =? p then Some None else None
      | None => None
      end
  | _ => Some held
  end.

(** Where a worker stands in a turn of its loop: about to check the flag,
    past a check that found it clear, or past a check that found it set. *)
Inductive turn := Idle | Clear | Stopped.

(** The flag is checked only at the start of a turn; a spawn is allowed only
    past a check that found the flag clear, and so is a read, which ends the
    turn. *)
Definition flag_step (q : turn) (e : event) : option turn :=
  match e with
  | EvIsSet b =>
      match q with
      | Idle => Some (if b then Stopped else Clear)
      | _ => None
      end
  | EvPopen _ _ =>
      match q with
      | Clear => Some Clear
      | _ => None
      end
  | EvReadline _ _ =>
      match q with
      | Clear => Some Idle
      | _ => None
      end
  | _ => Some q
  end.

(** What a worker knows of the liveness of its child: nothing while it holds
    none; the time [lit] of its spawn or of its latest line with the marker;
    and the steps of a turn that read or use that time. *)
Inductive liveness :=
| Unset
| Spawned
| Since (lit : Z)
| Marked
| AtEnd (lit : Z)
| Checking (lit : Z)
| Stale
| Fresh (lit : Z).

(** The time is read right after a spawn and right after a line with the
    marker, and compared at an empty read from a child that still runs.
    Beyond the timeout the next call prints the message of the stall and the
    child is given up; otherwise the next call is the check of the flag.  A
    line is read only from a child whose time is known. *)
Definition liveness_step (worker_id no_inference_timeout : Z)
  (q : liveness) (e : event) : option liveness :=
  match q with
  | Unset =>
      match e with
      | EvPopen _ (Done _) => Some Spawned
      | EvReadline _ _ | EvPoll _ _ => None
      | _ => Some Unset
      end
  | Spawned =>
      match e with
      | EvNow t => Some (Since t)
      | _ => None
      end
  | Since lit =>
      match e with
      | EvPopen _ (Done _) => Some Spawned
      | EvPopen _ (Fails _) => Some Unset
      | EvReadline _ (Line out) =>
          if nonempty out then
            Some (if contains "Inference finished" out then Marked else Since lit)
          else Some (AtEnd lit)
      | EvReadline _ (ReadFails _) => Some Unset
      | EvNow _ | EvSleep _ => None
      | _ => Some (Since lit)
      end
  | Marked =>
      match e with
      | EvPrint _ => Some Marked
      | EvNow t => Some (Since t)
      | _ => None
      end
  | AtEnd lit =>
      match e with
      | EvPoll _ None => Some (Checking lit)
      | EvPoll _ (Some _) => Some (Since lit)
      | _ => None
      end
  | Checking lit =>
      match e with
      | EvNow t =>
          Some (if t - lit >? timedelta_minutes no_inference_timeout
                then Stale else Fresh lit)
      | _ => None
      end
  | Stale =>
      match e with
      | EvPrint line =>
          if String.eqb line (stall_message worker_id no_inference_timeout)
          then Some Unset else None
      | _ => None
      end
  | Fresh lit =>
      match e with
      | EvIsSet _ => Some (Since lit)
      | _ => None
      end
  end.

(** The state of the monitor between two turns, from the variables of
    [run_worker]. *)
Definition known (l : locals) : liveness :=
  match process l with
  | Some _ => Since (last_inference_time l)
  | None => Unset
  end.

(** Between the steps of a turn: no child, or a child whose time is known. *)
Definition settled (q : liveness) : Prop := q = Unset \/ exists lit, q = Since lit.





(** The calls of [main] in the turns that follow generation [old], one
    generation of threads per turn. *)
Fixpoint cycles (args : arguments) (old : list tid) (gens : list (list tid))
  : list event :=
  match gens with
  | [] => []
  | g :: rest =>
      (EvSleep 300
         :: [EvPrint "Restarting all workers..."; EvFlagSet]
         ++ joins old ++ [EvFlagClear]
         ++ starts (command args) (silent args) (no_inference_timeout args)
              (range (Z.of_nat (List.length old))) g
         ++ cycles args g rest)%list
  end.

(** The calls of [main] before its loop. *)
Definition startup_calls (args : arguments) (threads : list tid) : list event :=
  (EvSignalInstall SignalHandler
     :: (if silent args then []
         else [EvPrint ("Starting " ++ str_of_Z (instances args) ++ " workers")])
     ++ starts (command args) (silent args) (no_inference_timeout args)
          (range (instances args)) threads)%list.

(** The calls of a turn of [main] that stays in the join of thread [t],
    the threads [done] joined before it. *)
Definition stuck_calls (done : list tid) (t : tid) : list event :=
  (EvSleep 300
     :: [EvPrint "Restarting all workers..."; EvFlagSet]
     ++ joins done ++ [EvThreadJoin t false])%list.

(** The calls of a turn of [main] that has no thread to restart. *)
Definition idle_turn : list event :=
  [EvSleep 300; EvPrint "Restarting all workers..."; EvFlagSet; EvFlagClear].

Definition no_worker_args : arguments :=
  {| command := echo_sleep; instances := 0; silent := false;
     no_inference_timeout := 1 |}.

(** * Properties *)

(** ** The monad *)

Ltac same_list :=
  cbn [app]; rewrite <- ?app_assoc; cbn [app]; reflexivity.

#[local] Arguments String.append : simpl never.
#[local] Arguments worker_tag : simpl never.

Lemma bind_ok {W A B} (m : M W A) (k : A -> M W B) s a s' :
  m s = (Ok a, s') -> bind m k s = k a s'.
Proof. intros E. unfold bind. now rewrite E. Qed.


Lemma bind_raise {W A B} (m : M W A) (k : A -> M W B) s e s' :
  m s = (Raise e, s') -> bind m k s = (Raise e, s').
Proof. intros E. unfold bind. now rewrite E. Qed.

Lemma bind_hang {W A B} (m : M W A) (k : A -> M W B) s s' :
  m s = (Hang, s') -> bind m k s = (Hang, s').
Proof. intros E. unfold bind. now rewrite E. Qed.

Lemma call_runs {W A} (op : W -> A * W) (ev : A -> event) (s : state W) a w :
  op (world s) = (a, w) -> call op ev s = (Ok a, after s w [ev a]).
Proof. intros E. unfold call, after. now rewrite E. Qed.


Lemma after_after {W} (s : state W) w1 e1 w2 e2 :
  after (after s w1 e1) w2 e2 = after s w2 (e1 ++ e2).
Proof. unfold after. simpl. now rewrite app_assoc. Qed.


(** ** Calls that only return or raise an [Exception] *)

Lemma Benign_ret {W A} (a : A) : Benign (@ret W A a).
Proof. intros s. exact I. Qed.

Lemma Benign_call {W A} (op : W -> A * W) ev : Benign (call op ev).
Proof. intros s. unfold call. destruct (op (world s)). exact I. Qed.

Lemma Benign_lift {W A} (o : outcome A) : Benign (@lift W A o).
Proof. intros s. destruct o; exact I. Qed.

Lemma Benign_bind {W A B} (m : M W A) (k : A -> M W B) :
  Benign m -> (forall a, Benign (k a)) -> Benign (bind m k).
Proof.
  intros Hm Hk s. unfold bind. specialize (Hm s).
  destruct (m s) as [[a | e | | ] s']; simpl in *; try contradiction.
  - apply Hk.
  - exact Hm.
Qed.

Lemma Benign_for_each {W A} (xs : list A) (f : A -> M W unit) :
  (forall x, Benign (f x)) -> Benign (for_each xs f).
Proof.
  intros Hf. induction xs as [| x r IH]; simpl.
  - apply Benign_ret.
  - apply Benign_bind; auto.
Qed.

Create HintDb benign.
#[local] Hint Resolve Benign_ret Benign_call Benign_lift Benign_for_each : benign.

Ltac benign :=
  repeat (first [ apply Benign_bind; [| intro ]
                | solve [ auto with benign ] ]).

Section WorkerFacts.

Context {W : Type}.
Variable os : OS W.

Lemma Benign_terminate_tree p worker_id : Benign (terminate_tree os p worker_id).
Proof.
  unfold terminate_tree, psutil_Process, proc_children, proc_terminate,
    wait_procs, proc_kill, print.
  benign.
  apply Benign_for_each. intro. unfold proc_terminate. benign.
  apply Benign_for_each. intro. benign.
Qed.

Lemma print_runs line (s : state W) :
  print os line s = (Ok tt, after s (os_print os line (world s)) [EvPrint line]).
Proof. reflexivity. Qed.

(** The shape of every call of [terminate_process] on a process. *)
Lemma terminate_process_some p worker_id (s : state W) :
  let s0 := after s (os_print os (worker_tag worker_id ++ "Terminating process...") (world s))
              [EvPrint (worker_tag worker_id ++ "Terminating process...")] in
  let r := fst (terminate_tree os p worker_id s0) in
  let s1 := snd (terminate_tree os p worker_id s0) in
  exists w,
    terminate_process os (Some p) worker_id s =
      (Ok tt,
       after s1 w (absorbed worker_id r ++
                   [EvPrint (worker_tag worker_id ++ "Process termination completed")])).
Proof.
  intros s0 r s1. subst r s1.
  pose proof (Benign_terminate_tree p worker_id s0) as B.
  unfold terminate_process.
  rewrite (bind_ok _ _ _ (print_runs _ s)). fold s0.
  unfold bind at 1. unfold try_except.
  destruct (terminate_tree os p worker_id s0) as [[[] | [[m | m] | ] | | ] s1];
    simpl in *; try contradiction;
    rewrite ?print_runs; simpl; rewrite ?print_runs; simpl;
    unfold after; simpl; rewrite <- ?app_assoc; simpl; eauto.
Qed.

End WorkerFacts.

Section TerminateFacts.

Context {W : Type}.
Variable os : OS W.







End TerminateFacts.

(** C9: [terminate_process] never raises past its boundary.  Whatever the
    operating system answers, every call returns normally.  With no process
    it does nothing; with one, an exception of the body of the [try] is
    absorbed: [NoSuchProcess] (the target already exited, found while the
    tree is enumerated or signalled) is logged as already terminated, any
    other failure is logged with the worker id and its message, and the
    call ends with the completion line. *)
Theorem terminate_process_never_raises :
  forall (W : Type) (os : OS W) (process : option pid) (worker_id : Z)
         (s : state W),
  exists s',
    terminate_process os process worker_id s = (Ok tt, s') /\
    match process with
    | None => s' = s
    | Some p =>
        let entry :=
          snd (print os (worker_tag worker_id ++ "Terminating process...") s) in
        let body := terminate_tree os p worker_id entry in
        benign (fst body) /\
        hist s' =
          (hist (snd body) ++ absorbed worker_id (fst body)
             ++ [EvPrint (worker_tag worker_id ++ "Process termination completed")])%list
    end.
Proof.
  intros W os [p |] worker_id s.
  - destruct (terminate_process_some os p worker_id s) as [w E].
    eexists. split; [exact E |]. split.
    + apply Benign_terminate_tree.
    + reflexivity.
  - exists s. split; reflexivity.
Qed.




(** ** One turn of the worker's loop *)

Section ReadFacts.

Context {W : Type}.
Variable os : OS W.

Lemma terminate_process_returns process worker_id (s : state W) :
  exists s', terminate_process os process worker_id s = (Ok tt, s').
Proof.
  destruct process as [p |].
  - destruct (terminate_process_some os p worker_id s) as [w E]. eauto.
  - exists s. reflexivity.
Qed.

Lemma readline_line p (s : state W) out w :
  os_readline os p (world s) = (Line out, w) ->
  stdout_readline os p s = (Ok out, after s w [EvReadline p (Line out)]).
Proof.
  intros E. unfold stdout_readline.
  now rewrite (bind_ok _ _ _ (call_runs _ _ _ E)).
Qed.

Lemma readline_blocked p (s : state W) w :
  os_readline os p (world s) = (Blocked, w) ->
  stdout_readline os p s = (Hang, after s w [EvReadline p Blocked]).
Proof.
  intros E. unfold stdout_readline.
  now rewrite (bind_ok _ _ _ (call_runs _ _ _ E)).
Qed.

Lemma readline_fails p (s : state W) e w :
  os_readline os p (world s) = (ReadFails e, w) ->
  stdout_readline os p s
    = (Raise (PyException e), after s w [EvReadline p (ReadFails e)]).
Proof.
  intros E. unfold stdout_readline.
  now rewrite (bind_ok _ _ _ (call_runs _ _ _ E)).
Qed.

Lemma poll_runs p (s : state W) rc w :
  os_poll os p (world s) = (rc, w) ->
  process_poll os p s = (Ok rc, after s w [EvPoll p rc]).
Proof. apply call_runs. Qed.

Lemma now_runs (s : state W) t w :
  os_now os (world s) = (t, w) ->
  datetime_now os s = (Ok t, after s w [EvNow t]).
Proof. apply call_runs. Qed.


Lemma try_except_ok {A} (m : M W A) h (s : state W) a s' :
  m s = (Ok a, s') -> try_except m h s = (Ok a, s').
Proof. intros E. unfold try_except. now rewrite E. Qed.

Lemma try_except_hang {A} (m : M W A) h (s : state W) s' :
  m s = (Hang, s') -> try_except m h s = (Hang, s').
Proof. intros E. unfold try_except. now rewrite E. Qed.

Lemma try_except_raise {A} (m : M W A) h (s : state W) e s' :
  m s = (Raise e, s') -> try_except m h s = h e s'.
Proof. intros E. unfold try_except. now rewrite E. Qed.

Lemma is_set_runs (s : state W) b w :
  os_is_set os (world s) = (b, w) ->
  stop_flag_is_set os s = (Ok b, after s w [EvIsSet b]).
Proof. apply call_runs. Qed.

(** A non-empty line. *)
Lemma read_step_line worker_id (silent : bool) timeout p lit (s : state W) out w1 :
  os_readline os p (world s) = (Line out, w1) ->
  nonempty out = true ->
  let line := worker_tag worker_id ++ strip out in
  let w2 := if silent then w1 else os_print os line w1 in
  let shown := if silent then [] else [EvPrint line] in
  read_step os worker_id silent timeout p lit s =
    if contains "Inference finished" out then
      (Ok {| process := Some p; last_inference_time := fst (os_now os w2) |},
       after s (snd (os_now os w2))
         (EvReadline p (Line out) :: shown ++ [EvNow (fst (os_now os w2))]))
    else
      (Ok {| process := Some p; last_inference_time := lit |},
       after s w2 (EvReadline p (Line out) :: shown)).
Proof.
  intros R Hne line w2 shown. unfold read_step.
  assert (Shown : when (negb silent) (print os line)
                    (after s w1 [EvReadline p (Line out)])
                  = (Ok tt, after s w2 (EvReadline p (Line out) :: shown))).
  { subst w2 shown. destruct silent; cbn [negb when].
    - reflexivity.
    - rewrite print_runs. now rewrite after_after. }
  destruct (contains "Inference finished" out) eqn:C;
    apply try_except_ok; unfold read_output;
    rewrite (bind_ok _ _ _ (readline_line _ _ R)); rewrite Hne;
    fold line; rewrite (bind_ok _ _ _ Shown); rewrite C; [| reflexivity].
  destruct (os_now os w2) as [t w3] eqn:N.
  rewrite (bind_ok _ _ _ (now_runs (after s w2 _) N)).
  rewrite after_after. reflexivity.
Qed.

Lemma read_output_raises worker_id silent timeout p lit (s : state W) e w :
  os_readline os p (world s) = (ReadFails e, w) ->
  read_output os worker_id silent timeout p lit s
  = (Raise (PyException e), after s w [EvReadline p (ReadFails e)]).
Proof.
  intros R. unfold read_output, bind. now rewrite (readline_fails _ _ R).
Qed.

Lemma read_output_blocks worker_id silent timeout p lit (s : state W) w :
  os_readline os p (world s) = (Blocked, w) ->
  read_output os worker_id silent timeout p lit s
  = (Hang, after s w [EvReadline p Blocked]).
Proof.
  intros R. unfold read_output, bind. now rewrite (readline_blocked _ _ R).
Qed.

End ReadFacts.



(** A child that keeps writing is read line after line, whatever the
    timeout and the liveness time. *)
Lemma chatter_loop lines :
  Forall (fun lt => nonempty (fst lt) = true) lines ->
  forall command worker_id silent timeout p lit rest h hd,
    worker_loop Replay (List.length lines) command worker_id silent timeout
      {| process := Some p; last_inference_time := lit |}
      {| world := (chatter lines ++ rest)%list; hist := h; on_sigint := hd |}
    = (OutOfFuel,
       {| world := rest;
          hist := (h ++ flat_map (chatter_turn worker_id silent p) lines)%list;
          on_sigint := hd |}).
Proof.
  induction 1 as [| [out t] r Hne _ IH];
    intros command worker_id silent timeout p lit rest h hd.
  - cbn [List.length worker_loop chatter flat_map app]. unfold out_of_fuel.
    now rewrite app_nil_r.
  - cbn [fst snd] in Hne.
    set (more := (if contains "Inference finished" out then [SaysNow t] else [])).
    set (tail := (more ++ chatter r ++ rest)%list).
    assert (U : (chatter ((out, t) :: r) ++ rest)%list
                = SaysFlag false :: SaysPoll None :: SaysRead (Line out) :: tail).
    { subst tail more. unfold chatter. cbn [flat_map fst snd].
      rewrite <- !app_assoc. reflexivity. }
    rewrite U. clear U. cbn [List.length worker_loop].
    set (s0 := {| world := SaysFlag false :: SaysPoll None :: SaysRead (Line out) :: tail;
                  hist := h; on_sigint := hd |}).
    set (s1 := after s0 (SaysPoll None :: SaysRead (Line out) :: tail) [EvIsSet false]).
    set (s2 := after s1 (SaysRead (Line out) :: tail) [EvPoll p None]).
    assert (F : stop_flag_is_set Replay s0 = (Ok false, s1)) by reflexivity.
    assert (E : ensure_process Replay command worker_id
                  {| process := Some p; last_inference_time := lit |} s1
                = (Ok (p, lit), s2)) by reflexivity.
    assert (R : os_readline Replay p (world s2) = (Line out, tail)) by reflexivity.
    pose proof (read_step_line Replay worker_id silent timeout p lit s2 R Hne) as S.
    cbv zeta in S.
    replace (if silent then tail else os_print Replay _ tail) with tail in S
      by now destruct silent.
    rewrite (bind_ok _ _ _ F). unfold iteration.
    assert (It : forall l s3,
               read_step Replay worker_id silent timeout p lit s2 = (Ok l, s3) ->
               (pl <- ensure_process Replay command worker_id
                        {| process := Some p; last_inference_time := lit |} ;;
                read_step Replay worker_id silent timeout (fst pl) (snd pl)) s1
               = (Ok l, s3))
      by (intros l s3 X; now rewrite (bind_ok _ _ _ E)).
    unfold chatter_turn. cbn [flat_map fst snd]. fold more.
    subst tail more.
    destruct (contains "Inference finished" out);
      cbn [app os_now Replay next fst snd] in S;
      rewrite (bind_ok _ _ _ (It _ _ S));
      unfold after, s2, s1, s0; cbn [world hist on_sigint];
      rewrite IH; unfold chatter_turn; do 2 f_equal;
      unfold after; cbn [world hist on_sigint]; destruct silent; same_list.
Qed.

(** C10: the stall comparison belongs to one case only, the empty read from
    a child still alive.  In every other case the turn is settled without
    looking at the timeout or at the time since the last liveness: a
    non-empty line (marker or not) leaves the process in place whatever the
    elapsed time; a read that blocks stops the turn inside the read; an empty
    read from a child that has exited leaves the variables as they were; a
    read error goes to the error path.  So a child that keeps writing lines
    is read turn after turn and never checked, whatever the timeout: the
    loop makes no other call than those of [chatter_turn]. *)
Theorem stall_check_only_on_empty_read :
  (forall (W : Type) (os : OS W) (worker_id : Z) (silent : bool) (timeout : Z)
          (p : pid) (lit : Z) (s : state W),
    (forall out w1,
        os_readline os p (world s) = (Line out, w1) ->
        nonempty out = true ->
        let line := worker_tag worker_id ++ strip out in
        let w2 := if silent then w1 else os_print os line w1 in
        let shown := if silent then [] else [EvPrint line] in
        read_step os worker_id silent timeout p lit s =
          if contains "Inference finished" out then
            (Ok {| process := Some p; last_inference_time := fst (os_now os w2) |},
             after s (snd (os_now os w2))
               (EvReadline p (Line out) :: shown ++ [EvNow (fst (os_now os w2))]))
          else
            (Ok {| process := Some p; last_inference_time := lit |},
             after s w2 (EvReadline p (Line out) :: shown)))
    /\ (forall w1,
        os_readline os p (world s) = (Blocked, w1) ->
        read_step os worker_id silent timeout p lit s
        = (Hang, after s w1 [EvReadline p Blocked]))
    /\ (forall w1 rc w2,
        os_readline os p (world s) = (Line EmptyString, w1) ->
        os_poll os p w1 = (Some rc, w2) ->
        read_step os worker_id silent timeout p lit s
        = (Ok {| process := Some p; last_inference_time := lit |},
           after s w2 [EvReadline p (Line EmptyString); EvPoll p (Some rc)]))
    /\ (forall e w1,
        os_readline os p (world s) = (ReadFails e, w1) ->
        read_step os worker_id silent timeout p lit s
        = (print os (worker_tag worker_id ++ "Error - " ++ str_of_exception e
                       ++ ". Restarting...") ;;
           terminate_process os (Some p) worker_id ;;
           time_sleep os 5 ;;
           ret {| process := None; last_inference_time := lit |})
            (after s w1 [EvReadline p (ReadFails e)])))
  /\ (forall (lines : list (string * Z)) (command : string) (worker_id : Z)
             (silent : bool) (timeout : Z) (p : pid) (lit : Z),
        Forall (fun lt => nonempty (fst lt) = true) lines ->
        worker_loop Replay (List.length lines) command worker_id silent timeout
          {| process := Some p; last_inference_time := lit |}
          (start_state (chatter lines))
        = (OutOfFuel,
           after (start_state (chatter lines)) []
             (flat_map (chatter_turn worker_id silent p) lines))).
Proof.
  split.
  - intros W os worker_id silent timeout p lit s. repeat split.
    + intros out w1 R Hne. now apply read_step_line.
    + intros w1 R. unfold read_step. apply try_except_hang.
      now apply read_output_blocks.
    + intros w1 rc w2 R P. unfold read_step, read_output. apply try_except_ok.
      rewrite (bind_ok _ _ _ (readline_line os _ _ R)). cbn [nonempty].
      rewrite (bind_ok _ _ _ (poll_runs os _ (after s w1 _) P)).
      now rewrite after_after.
    + intros e w1 R. unfold read_step.
      now rewrite (try_except_raise _ _ _
                     (@read_output_raises _ os worker_id silent timeout p lit s e w1 R)).
  - intros lines command worker_id silent timeout p lit F.
    pose proof (chatter_loop F command worker_id silent timeout p lit [] [] SignalHandler)
      as L.
    rewrite app_nil_r in L. exact L.
Qed.

(** A line without the marker, read ten hours after the last liveness with
    a timeout of one minute: the child is kept. *)
Lemma stall_check_only_on_empty_read_witness :
  let s := start_state [SaysRead (Line ("loading model" ++ newline)); SaysNow 36000000000] in
  read_step Replay 0 false 1 10 0 s
  = (Ok {| process := Some 10; last_inference_time := 0 |},
     after s [SaysNow 36000000000]
       [EvReadline 10 (Line ("loading model" ++ newline));
        EvPrint "Worker 0: loading model"]).
Proof.
  cbv zeta.
  exact (proj1 (proj1 stall_check_only_on_empty_read _ Replay 0 false 1 10 0
                  (start_state [SaysRead (Line ("loading model" ++ newline));
                                SaysNow 36000000000]))
           ("loading model" ++ newline) [SaysNow 36000000000] eq_refl eq_refl).
Defined.

(** ** Errors that leave [run_worker] *)

Section EscapeFacts.

Context {W : Type}.
Variable os : OS W.

Lemma Popen_fails command (s : state W) e w :
  os_popen os command (world s) = (Fails e, w) ->
  Popen os command s
  = (Raise (PyException e), after s w [EvPopen command (Fails e)]).
Proof.
  intros E. unfold Popen. now rewrite (bind_ok _ _ _ (call_runs _ _ _ E)).
Qed.

Lemma spawn_fails command (s : state W) e w :
  os_popen os command (world s) = (Fails e, w) ->
  spawn os command s
  = (Raise (PyException e), after s w [EvPopen command (Fails e)]).
Proof.
  intros E. unfold spawn, bind. now rewrite (Popen_fails _ _ E).
Qed.

End EscapeFacts.

(** C2, where the code departs from it: [Popen] stands before the [try]
    (line 51, the [try] opens at line 54), so a spawn that fails in the first
    turn of the loop raises out of [run_worker] and ends the thread. *)
Theorem spawn_failure_leaves_run_worker :
  forall (W : Type) (os : OS W) (fuel : nat) (command : string) (worker_id : Z)
         (silent : bool) (timeout : Z) (s : state W) (t : Z) (w1 w2 w3 : W)
         (e : exception),
    os_now os (world s) = (t, w1) ->
    os_is_set os w1 = (false, w2) ->
    os_popen os command w2 = (Fails e, w3) ->
    run_worker os (S fuel) command worker_id silent timeout s
    = (Raise (PyException e),
       after s w3 [EvNow t; EvIsSet false; EvPopen command (Fails e)]).
Proof.
  intros W os fuel command worker_id silent timeout s t w1 w2 w3 e N F P.
  unfold run_worker.
  rewrite (bind_ok _ _ _ (now_runs os s N)).
  apply bind_raise. cbn [worker_loop].
  rewrite (bind_ok _ _ _ (is_set_runs os (after s w1 _) F)).
  apply bind_raise. unfold iteration. apply bind_raise.
  unfold ensure_process. cbn [process].
  rewrite (spawn_fails os command (after (after s w1 _) w2 _) P).
  now rewrite !after_after.
Qed.

(** The failing run: the flag is clear and the first [Popen] cannot fork. *)
Lemma spawn_failure_leaves_run_worker_witness :
  let s := start_state
             [SaysNow 0; SaysFlag false;
              SaysPopen (Fails (OtherException
                 "[Errno 11] Resource temporarily unavailable"))] in
  run_worker Replay 1 "kuzco worker start" 0 false 60 s
  = (Raise (PyException (OtherException
              "[Errno 11] Resource temporarily unavailable")),
     after s []
       [EvNow 0; EvIsSet false;
        EvPopen "kuzco worker start"
          (Fails (OtherException "[Errno 11] Resource temporarily unavailable"))]).
Proof.
  cbv zeta.
  apply (@spawn_failure_leaves_run_worker script Replay 0 "kuzco worker start"
           0 false 60 (start_state _) 0
           [SaysFlag false;
            SaysPopen (Fails (OtherException
               "[Errno 11] Resource temporarily unavailable"))]
           [SaysPopen (Fails (OtherException
               "[Errno 11] Resource temporarily unavailable"))]
           []); reflexivity.
Defined.

(** ** What the [try] of [run_worker] absorbs *)

Section AbsorbFacts.

Context {W : Type}.
Variable os : OS W.

Lemma Returns_bind {A B} (m : M W A) (k : A -> M W B) :
  Returns m -> (forall a, Returns (k a)) -> Returns (bind m k).
Proof.
  intros Hm Hk s. destruct (Hm s) as (a & s1 & E).
  rewrite (bind_ok _ _ _ E). apply Hk.
Qed.

Lemma Returns_ret {A} (a : A) : Returns (@ret W A a).
Proof. intros s. now exists a, s. Qed.

Lemma Returns_call {A} (op : W -> A * W) ev : Returns (call op ev).
Proof.
  intros s. destruct (op (world s)) as [a w] eqn:E.
  rewrite (call_runs _ _ _ E). eauto.
Qed.

Lemma Returns_terminate_process process worker_id :
  Returns (terminate_process os process worker_id).
Proof.
  intros s. destruct (terminate_process_returns os process worker_id s) as [s' E].
  now exists tt, s'.
Qed.

(** Past the read, the body of the [try] always returns. *)
Lemma after_read_returns worker_id silent timeout p lit output :
  Returns (if nonempty output then
             when (negb silent) (print os (worker_tag worker_id ++ strip output)) ;;
             if contains "Inference finished" output then
               t <- datetime_now os ;;
               ret {| process := Some p; last_inference_time := t |}
             else ret {| process := Some p; last_inference_time := lit |}
           else
             rc <- process_poll os p ;;
             match rc with
             | None =>
                 t <- datetime_now os ;;
                 if t - lit >? timedelta_minutes timeout then
                   print os (stall_message worker_id timeout) ;;
                   terminate_process os (Some p) worker_id ;;
                   t' <- datetime_now os ;;
                   ret {| process := None; last_inference_time := t' |}
                 else ret {| process := Some p; last_inference_time := lit |}
             | Some _ => ret {| process := Some p; last_inference_time := lit |}
             end).
Proof.
  destruct (nonempty output).
  - apply Returns_bind.
    + destruct silent; cbn [negb when];
        [apply Returns_ret | apply Returns_call].
    + intros _. destruct (contains _ output).
      * apply Returns_bind; [apply Returns_call | intro; apply Returns_ret].
      * apply Returns_ret.
  - apply Returns_bind; [apply Returns_call |]. intros [rc |].
    + apply Returns_ret.
    + apply Returns_bind; [apply Returns_call |]. intros t.
      destruct (t - lit >? timedelta_minutes timeout).
      * apply Returns_bind; [apply Returns_call |]. intros _.
        apply Returns_bind; [apply Returns_terminate_process |]. intros _.
        apply Returns_bind; [apply Returns_call | intro; apply Returns_ret].
      * apply Returns_ret.
Qed.

(** Read errors and failures of the termination stay inside [read_step]:
    it returns, or it is blocked in the read. *)
Lemma read_step_absorbs worker_id silent timeout p lit (s : state W) :
  calm (fst (read_step os worker_id silent timeout p lit s)).
Proof.
  unfold read_step, try_except, read_output.
  unfold bind at 1, stdout_readline. unfold bind at 1, call.
  destruct (os_readline os p (world s)) as [[out | e |] w1]; cbn [lift ret raise hang].
  - match goal with
    | |- context [ ?m {| world := w1; hist := ?h; on_sigint := ?o |} ] =>
        destruct (@after_read_returns worker_id silent timeout p lit out
                    {| world := w1; hist := h; on_sigint := o |}) as (l & s' & E)
    end.
    rewrite E. exact I.
  - match goal with
    | |- context [ bind ?m ?k ?st ] =>
        assert (R : Returns (bind m k))
    end.
    { apply Returns_bind; [apply Returns_call |]. intros _.
      apply Returns_bind; [apply Returns_terminate_process |]. intros _.
      apply Returns_bind; [apply Returns_call | intro; apply Returns_ret]. }
    match goal with
    | |- context [ bind ?m ?k ?st ] => destruct (R st) as (l & s' & E)
    end.
    rewrite E. exact I.
  - exact I.
Qed.

Lemma worker_loop_more_fuel n k command worker_id silent timeout :
  forall l (s : state W) r s',
    worker_loop os n command worker_id silent timeout l s = (r, s') ->
    r <> OutOfFuel ->
    worker_loop os (n + k) command worker_id silent timeout l s = (r, s').
Proof.
  induction n as [| n IH]; intros l s r s' E N.
  - cbn in E. injection E as <- _. now destruct N.
  - cbn [Nat.add worker_loop] in *. unfold bind at 1 in E. unfold bind at 1.
    destruct (stop_flag_is_set os s) as [[[] | e | | ] s1]; try exact E.
    unfold bind at 1 in E. unfold bind at 1.
    destruct (iteration os command worker_id silent timeout l s1)
      as [[l' | e | | ] s2]; try exact E.
    now apply IH.
Qed.

Lemma run_worker_more_fuel n k command worker_id silent timeout
  (s : state W) r s' :
  run_worker os n command worker_id silent timeout s = (r, s') ->
  r <> OutOfFuel ->
  run_worker os (n + k) command worker_id silent timeout s = (r, s').
Proof.
  unfold run_worker. intros E N.
  unfold bind at 1 in E. unfold bind at 1.
  destruct (datetime_now os s) as [[t0 | e | | ] s1]; try exact E.
  unfold bind at 1 in E. unfold bind at 1.
  destruct (worker_loop os n command worker_id silent timeout _ s1)
    as [[l | e | | ] s2] eqn:L.
  - rewrite (worker_loop_more_fuel _ k _ _ _ _ _ _ L); [exact E | discriminate].
  - rewrite (worker_loop_more_fuel _ k _ _ _ _ _ _ L); [exact E | discriminate].
  - rewrite (worker_loop_more_fuel _ k _ _ _ _ _ _ L); [exact E | discriminate].
  - injection E as <- _. now destruct N.
Qed.

End AbsorbFacts.

(** ** The scenario of the stall timeout *)

Lemma enough_fuel n k command worker_id silent timeout (s : state machine) :
  fst (run_worker (Machine shell) n command worker_id silent timeout s) = Ok tt ->
  run_worker (Machine shell) (n + k) command worker_id silent timeout s
  = run_worker (Machine shell) n command worker_id silent timeout s.
Proof.
  intros E.
  destruct (run_worker (Machine shell) n command worker_id silent timeout s)
    as [r s'] eqn:R.
  cbn [fst] in E. subst r.
  apply run_worker_more_fuel; [exact R | discriminate].
Qed.

(** C4, where the code departs from it: ["echo A; sleep 600"], two
    instances, a stall timeout of one minute.  Each worker reads the line,
    then stays in its second read from its start until the stream ends, 600
    seconds later: after one turn of its loop the clock has not moved, after
    two it stands at 600 seconds.  That read is empty and the child has
    exited, so no stall check is made.  In its whole life the worker spawns
    one child, never prints the stall message and never signals a process;
    it returns only because the periodic restart set the flag. *)
Theorem stall_scenario_waits_for_end_of_stream :
  forall k : nat,
    let worker0 fuel :=
      run_worker (Machine shell) fuel echo_sleep 0 false 1
        (boot 0 1000 (Some (seconds 302))) in
    let worker1 fuel :=
      run_worker (Machine shell) fuel echo_sleep 1 false 1
        (boot (seconds 1) 2000 (Some (seconds 302))) in
    (fst (worker0 1%nat) = OutOfFuel /\ clock (world (snd (worker0 1%nat))) = 0)
    /\ (fst (worker0 2%nat) = OutOfFuel
        /\ clock (world (snd (worker0 2%nat))) = seconds 600
        /\ hist (snd (worker0 2%nat)) = firstn 10 (scenario_run 0 1000 0))
    /\ (fst (worker0 (3 + k)%nat) = Ok tt
        /\ clock (world (snd (worker0 (3 + k)%nat))) = seconds 600
        /\ hist (snd (worker0 (3 + k)%nat)) = scenario_run 0 1000 0)
    /\ (fst (worker1 (3 + k)%nat) = Ok tt
        /\ clock (world (snd (worker1 (3 + k)%nat))) = seconds 601
        /\ hist (snd (worker1 (3 + k)%nat)) = scenario_run 1 2000 (seconds 1))
    /\ existsb signals_process
         (scenario_run 0 1000 0 ++ scenario_run 1 2000 (seconds 1)) = false
    /\ existsb (fun e => match e with
                         | EvPrint line =>
                             String.eqb line (stall_message 0 1)
                             || String.eqb line (stall_message 1 1)
                         | _ => false
                         end)
         (scenario_run 0 1000 0 ++ scenario_run 1 2000 (seconds 1)) = false.
Proof.
  intros k worker0 worker1. subst worker0 worker1. cbv beta.
  rewrite !enough_fuel by (vm_compute; reflexivity).
  vm_compute. repeat split; reflexivity.
Qed.

(** ** The main thread under [signal_handler] *)

Section SupervisorFacts.

Context {W : Type}.
Variable rt : Runtime W.

Lemma rt_steps_trans w1 w2 w3 :
  rt_steps rt w1 w2 -> rt_steps rt w2 w3 -> rt_steps rt w1 w3.
Proof.
  induction 1 as [| a b c S _ IH]; intros H; [exact H |].
  eapply steps_cons; [exact S | now apply IH].
Qed.

Lemma rt_steps_one w1 w2 : rt_step rt w1 w2 -> rt_steps rt w1 w2.
Proof. intros S. eapply steps_cons; [exact S | apply steps_refl]. Qed.

Lemma own_app h1 h2 : own (h1 ++ h2) = (own h1 ++ own h2)%list.
Proof. unfold own. apply filter_app. Qed.

Lemma tidy_refl (s : state W) : on_sigint s = SignalHandler -> tidy rt s s [].
Proof.
  intros H. split; [exact H | apply steps_refl |].
  exists []. rewrite app_nil_r. repeat split. constructor.
Qed.

Lemma tidy_trans (s1 s2 s3 : state W) e1 e2 :
  tidy rt s1 s2 e1 -> tidy rt s2 s3 e2 -> tidy rt s1 s3 (e1 ++ e2).
Proof.
  intros [_ W1 (h1 & H1 & O1 & F1)] [K2 W2 (h2 & H2 & O2 & F2)].
  split; [exact K2 | eapply rt_steps_trans; eauto |].
  exists (h1 ++ h2)%list. rewrite H2, H1, <- app_assoc, own_app, O1, O2.
  repeat split. apply Forall_app. now split.
Qed.

Lemma tidy_added (s s' : state W) evs : tidy rt s s' evs -> own (added s s') = evs.
Proof.
  intros [_ _ (h & H & O & _)]. unfold added. rewrite H.
  rewrite skipn_app, skipn_all, Nat.sub_diag. exact O.
Qed.



Lemma sigint_tidy (s : state W) :
  on_sigint s = SignalHandler ->
  exists s', sigint rt s = (Ok tt, s') /\ tidy rt s s' [].
Proof.
  intros H. unfold sigint, run_handler. cbn [on_sigint]. rewrite H.
  unfold signal_handler, print_now, flag_set_now, bind, call. cbn.
  eexists. split; [reflexivity |]. split; cbn.
  - reflexivity.
  - eapply steps_cons; [apply step_print |]. apply rt_steps_one, step_flag_set.
  - exists [handled]. repeat split. constructor; [auto | constructor].
Qed.

Lemma deliver_tidy k (s : state W) :
  on_sigint s = SignalHandler ->
  exists s', deliver rt k s = (Ok tt, s') /\ tidy rt s s' [].
Proof.
  revert s. induction k as [| k IH]; intros s H; cbn [deliver].
  - exists s. split; [reflexivity | now apply tidy_refl].
  - destruct (sigint_tidy s H) as (s1 & E1 & T1).
    rewrite (bind_ok _ _ _ E1).
    destruct (IH s1 (tidy_handler T1)) as (s2 & E2 & T2).
    exists s2. split; [exact E2 |]. exact (tidy_trans T1 T2).
Qed.

Lemma check_signals_tidy (s : state W) :
  on_sigint s = SignalHandler ->
  exists s', check_signals rt s = (Ok tt, s') /\ tidy rt s s' [].
Proof.
  intros H. unfold check_signals.
  destruct (rt_sigints rt (world s)) as [k w] eqn:E.
  destruct (deliver_tidy k {| world := w; hist := hist s; on_sigint := on_sigint s |} H)
    as (s' & D & [K Wd (h & Hh & O & F)]).
  exists s'. split; [exact D |]. split; [exact K | |].
  - eapply steps_cons; [| exact Wd].
    replace w with (snd (rt_sigints rt (world s))) by now rewrite E.
    apply step_sigints.
  - exists h. auto.
Qed.

(** A call of the main thread that finds [signal_handler] installed. *)
Lemma on_main_call {A} (op : W -> A * W) (ev : A -> event) (s : state W) :
  on_sigint s = SignalHandler ->
  (forall w, rt_step rt w (snd (op w))) ->
  (forall a, is_sigint (ev a) = false) ->
  exists s',
    on_main rt (call op ev) s = (Ok (fst (op (world s))), s')
    /\ tidy rt s s' [ev (fst (op (world s)))]
    /\ rt_steps rt (snd (op (world s))) (world s').
Proof.
  intros H St Ev. unfold on_main.
  destruct (op (world s)) as [a w] eqn:E. cbn [fst snd].
  rewrite (bind_ok _ _ _ (call_runs _ _ _ E)).
  destruct (check_signals_tidy (after s w [ev a]) H) as (s' & C & T).
  rewrite (bind_ok _ _ _ C). exists s'. split; [reflexivity |]. split.
  - replace [ev a] with ([ev a] ++ [])%list by apply app_nil_r.
    refine (tidy_trans _ T). split; [exact H | |].
    + apply rt_steps_one. replace w with (snd (op (world s))) by now rewrite E.
      apply St.
    + exists [ev a]. repeat split.
      * unfold own. cbn. now rewrite Ev.
      * constructor; [| constructor]. intros S. now rewrite Ev in S.
  - exact (tidy_world T).
Qed.

Lemma main_print_tidy line (s : state W) :
  on_sigint s = SignalHandler ->
  exists s', main_print rt line s = (Ok tt, s') /\ tidy rt s s' [EvPrint line].
Proof.
  intros H. unfold main_print, print_now.
  destruct (on_main_call (fun w => (tt, rt_print rt line w))
              (fun _ => EvPrint line) s H) as (s' & E & T & _);
    [intro; apply step_print | reflexivity |]. eauto.
Qed.

Lemma stop_flag_set_tidy (s : state W) :
  on_sigint s = SignalHandler ->
  exists s', stop_flag_set rt s = (Ok tt, s') /\ tidy rt s s' [EvFlagSet].
Proof.
  intros H. unfold stop_flag_set, flag_set_now.
  destruct (on_main_call (fun w => (tt, rt_flag_set rt w))
              (fun _ => EvFlagSet) s H) as (s' & E & T & _);
    [intro; apply step_flag_set | reflexivity |]. eauto.
Qed.

Lemma stop_flag_clear_tidy (s : state W) :
  on_sigint s = SignalHandler ->
  exists s', stop_flag_clear rt s = (Ok tt, s') /\ tidy rt s s' [EvFlagClear].
Proof.
  intros H. unfold stop_flag_clear.
  destruct (on_main_call (fun w => (tt, rt_flag_clear rt w))
              (fun _ => EvFlagClear) s H) as (s' & E & T & _);
    [intro; apply step_flag_clear | reflexivity |]. eauto.
Qed.

Lemma main_sleep_tidy secs (s : state W) :
  on_sigint s = SignalHandler ->
  exists s', main_sleep rt secs s = (Ok tt, s') /\ tidy rt s s' [EvSleep secs].
Proof.
  intros H. unfold main_sleep.
  destruct (on_main_call (fun w => (tt, rt_sleep rt secs w))
              (fun _ => EvSleep secs) s H) as (s' & E & T & _);
    [intro; apply step_sleep | reflexivity |]. eauto.
Qed.

Lemma thread_start_tidy i c sl tm (s : state W) :
  on_sigint s = SignalHandler ->
  exists t s', thread_start rt i c sl tm s = (Ok t, s')
               /\ tidy rt s s' [EvThreadStart i c sl tm t].
Proof.
  intros H. unfold thread_start.
  destruct (on_main_call (rt_start rt i c sl tm) (EvThreadStart i c sl tm) s H)
    as (s' & E & T & _); [intro; apply step_start | reflexivity |]. eauto.
Qed.

End SupervisorFacts.

Section FleetFacts.

Context {W : Type}.
Variable rt : Runtime W.

Lemma finished_steps :
  thread_laws rt ->
  forall t w w', rt_steps rt w w' ->
    rt_status rt t w = Finished -> rt_status rt t w' = Finished.
Proof.
  intros L t w w' S. induction S as [| a b c S1 _ IH]; [auto |].
  intros F. apply IH. eapply finished_stays; eauto.
Qed.

Lemma all_finished_steps :
  thread_laws rt ->
  forall threads w w', rt_steps rt w w' ->
    all_finished rt threads w -> all_finished rt threads w'.
Proof.
  intros L threads w w' S F. unfold all_finished in *.
  eapply Forall_impl; [| exact F]. intros t. now apply finished_steps.
Qed.

Lemma thread_join_tidy t (s : state W) :
  on_sigint s = SignalHandler ->
  exists s',
    (thread_join rt t s = (Ok tt, s')
     /\ tidy rt s s' [EvThreadJoin t true]
     /\ (thread_laws rt -> rt_status rt t (world s') = Finished))
    \/ (thread_join rt t s = (Hang, s')
        /\ tidy rt s s' [EvThreadJoin t false]).
Proof.
  intros H. unfold thread_join.
  destruct (@on_main_call W rt _ (rt_join rt t) (EvThreadJoin t) s H)
    as (s' & E & T & St); [intro; apply step_join | reflexivity |].
  destruct (rt_join rt t (world s)) as [b w] eqn:J. cbn [fst snd] in *.
  exists s'. rewrite (bind_ok _ _ _ E). destruct b.
  - left. split; [reflexivity |]. split; [exact T |].
    intros L. eapply finished_steps; eauto. eapply join_finishes; eauto.
  - right. split; [reflexivity | exact T].
Qed.

Lemma join_all_tidy threads : forall (s : state W),
  on_sigint s = SignalHandler ->
  exists s',
    (for_each threads (thread_join rt) s = (Ok tt, s')
     /\ tidy rt s s' (joins threads)
     /\ (thread_laws rt -> all_finished rt threads (world s')))
    \/ (for_each threads (thread_join rt) s = (Hang, s')
        /\ exists done t rest,
            threads = (done ++ t :: rest)%list
            /\ tidy rt s s' (joins done ++ [EvThreadJoin t false])).
Proof.
  induction threads as [| t r IH]; intros s H; cbn [for_each].
  - exists s. left. split; [reflexivity |]. split; [now apply tidy_refl |].
    intros _. constructor.
  - destruct (thread_join_tidy t s H) as (s1 & [(E1 & T1 & F1) | (E1 & T1)]).
    + rewrite (bind_ok _ _ _ E1).
      destruct (IH s1 (tidy_handler T1))
        as (s2 & [(E2 & T2 & F2) | (E2 & done & t' & rest & -> & T2)]); exists s2.
      * left. split; [exact E2 |]. split; [exact (tidy_trans T1 T2) |].
        intros L. constructor; [| now apply F2].
        eapply finished_steps; [exact L | exact (tidy_world T2) | now apply F1].
      * right. split; [exact E2 |]. exists (t :: done), t', rest.
        split; [reflexivity |]. exact (tidy_trans T1 T2).
    + exists s1. right. rewrite (bind_hang _ _ _ E1). split; [reflexivity |].
      exists [], t, r. split; [reflexivity | exact T1].
Qed.

Lemma start_workers_tidy ids c sl tm : forall acc (s : state W),
  on_sigint s = SignalHandler ->
  exists nt s',
    start_workers rt ids c sl tm acc s = (Ok (acc ++ nt)%list, s')
    /\ List.length nt = List.length ids
    /\ tidy rt s s' (starts c sl tm ids nt).
Proof.
  induction ids as [| i r IH]; intros acc s H; cbn [start_workers].
  - exists [], s. rewrite app_nil_r.
    split; [reflexivity |]. split; [reflexivity |]. now apply tidy_refl.
  - destruct (thread_start_tidy rt i c sl tm s H) as (t & s1 & E1 & T1).
    rewrite (bind_ok _ _ _ E1).
    destruct (main_sleep_tidy rt 1 s1 (tidy_handler T1)) as (s2 & E2 & T2).
    rewrite (bind_ok _ _ _ E2).
    destruct (IH (acc ++ [t])%list s2 (tidy_handler T2)) as (nt & s3 & E3 & L3 & T3).
    exists (t :: nt), s3. rewrite E3, <- app_assoc. split; [reflexivity |].
    split; [cbn; now rewrite L3 |].
    exact (tidy_trans (tidy_trans T1 T2) T3).
Qed.

Lemma stop_all_workers_tidy threads (s : state W) :
  on_sigint s = SignalHandler ->
  exists s',
    (stop_all_workers rt threads s = (Ok tt, s')
     /\ tidy rt s s' ([EvPrint "Restarting all workers..."; EvFlagSet]
                       ++ joins threads ++ [EvFlagClear])
     /\ (thread_laws rt -> all_finished rt threads (world s')))
    \/ (stop_all_workers rt threads s = (Hang, s')
        /\ exists done t rest,
            threads = (done ++ t :: rest)%list
            /\ tidy rt s s' ([EvPrint "Restarting all workers..."; EvFlagSet]
                              ++ joins done ++ [EvThreadJoin t false])).
Proof.
  intros H. unfold stop_all_workers.
  destruct (main_print_tidy rt "Restarting all workers..." s H) as (s1 & E1 & T1).
  rewrite (bind_ok _ _ _ E1).
  destruct (stop_flag_set_tidy rt s1 (tidy_handler T1)) as (s2 & E2 & T2).
  rewrite (bind_ok _ _ _ E2).
  pose proof (tidy_trans T1 T2) as T12.
  destruct (join_all_tidy threads s2 (tidy_handler T2))
    as (s3 & [(E3 & T3 & F3) | (E3 & done & t & rest & -> & T3)]).
  - rewrite (bind_ok _ _ _ E3).
    destruct (stop_flag_clear_tidy rt s3 (tidy_handler T3)) as (s4 & E4 & T4).
    exists s4. left. split; [exact E4 |]. split.
    + pose proof (tidy_trans (tidy_trans T12 T3) T4) as T.
      now rewrite <- app_assoc in T.
    + intros L. eapply all_finished_steps; [exact L | exact (tidy_world T4) | now apply F3].
  - exists s3. right. rewrite (bind_hang _ _ _ E3). split; [reflexivity |].
    exists done, t, rest. split; [reflexivity |]. exact (tidy_trans T12 T3).
Qed.


Lemma signal_signal_tidy (s : state W) :
  exists s', signal_signal rt SignalHandler s = (Ok tt, s')
             /\ tidy rt s s' [EvSignalInstall SignalHandler].
Proof.
  unfold signal_signal, on_main. unfold bind at 1.
  match goal with
  | |- context [ bind _ _ ?st ] =>
      destruct (check_signals_tidy rt st eq_refl) as (s' & C & [K Ws (h & Hh & O & F)])
  end.
  rewrite (bind_ok _ _ _ C). exists s'. split; [reflexivity |].
  split; [exact K | exact Ws |].
  exists (EvSignalInstall SignalHandler :: h). cbn [hist] in Hh.
  rewrite Hh, <- app_assoc. repeat split.
  - unfold own in *. cbn. now rewrite O.
  - constructor; [discriminate | exact F].
Qed.

End FleetFacts.

(** ** The simulated fleet obeys the laws of threads *)

Lemma nth_error_update_nth {A} (f : A -> A) (l : list A) (n m : nat) :
  nth_error (update_nth n f l) m
  = if Nat.eqb n m then option_map f (nth_error l m) else nth_error l m.
Proof.
  revert n m. induction l as [| x r IH]; intros [| n] [| m]; cbn; auto.
  destruct (Nat.eqb n m); reflexivity.
Qed.

Section FleetLaws.

Variable program : string -> Z -> proc.
Variable worker_fuel : nat.

Lemma sim_join_status t t' (f : fleet) :
  rt_status (Fleet program worker_fuel) t f = Finished ->
  rt_status (Fleet program worker_fuel) t (snd (sim_join program worker_fuel t' f))
  = Finished.
Proof.
  cbn [rt_status Fleet]. unfold sim_join. intros F.
  destruct (nth_error (f_threads f) t') as [th' |] eqn:E'; [| exact F].
  destruct (run_thread program worker_fuel f th') as [r s]. cbn [snd f_threads].
  rewrite nth_error_update_nth.
  destruct (Nat.eqb t' t); [| exact F].
  destruct (nth_error (f_threads f) t) as [th |]; [| discriminate].
  cbn [option_map joined_thread th_joined].
  destruct (th_joined th); [reflexivity | discriminate].
Qed.

Lemma Fleet_laws : thread_laws (Fleet program worker_fuel).
Proof.
  split.
  - intros t w w'. cbn [rt_join rt_status Fleet]. unfold sim_join.
    destruct (nth_error (f_threads w) t) as [th |] eqn:E; [| discriminate].
    destruct (run_thread program worker_fuel w th) as [r s].
    intros J. injection J as D <-. cbn [f_threads].
    rewrite nth_error_update_nth, Nat.eqb_refl, E.
    cbn [option_map joined_thread th_joined]. rewrite D.
    now rewrite orb_true_r.
  - intros t w w' S. destruct S; try (intros F; exact F).
    + cbn [rt_status rt_start Fleet snd f_threads]. intros F.
      destruct (nth_error (f_threads w) t) as [th |] eqn:E; [| discriminate].
      rewrite nth_error_app1; [now rewrite E |].
      apply nth_error_Some. now rewrite E.
    + apply sim_join_status.
Qed.

End FleetLaws.

(** ** The restart cycle *)

Lemma range_of_length (n : Z) :
  range (Z.of_nat (Z.to_nat n)) = range n.
Proof. unfold range. now rewrite Nat2Z.id. Qed.

Lemma range_nth (n : Z) (k : nat) :
  (k < Z.to_nat n)%nat -> nth_error (range n) k = Some (Z.of_nat k).
Proof.
  intros H. unfold range. rewrite nth_error_map.
  rewrite (nth_error_nth' _ 0%nat) by now rewrite length_seq.
  now rewrite seq_nth.
Qed.

Lemma range_NoDup (n : Z) : NoDup (range n).
Proof.
  unfold range. apply NoDup_map_NoDup_ForallPairs.
  - intros a b _ _. apply Nat2Z.inj.
  - apply seq_NoDup.
Qed.



(** C7: a full restart runs in this order: the flag is set, every worker
    is joined, the flag is cleared, the workers are started.  Either every
    join returns: then all the threads of the old generation have finished
    when the stop phase ends, they stay finished in every later state of
    the runtime, and every start of the new generation comes after that
    point.  Or a join never returns: then the restart stays in it, and no
    thread is started.  So an old and a new worker of the same id are never
    alive together. *)
Theorem restart_cycle_is_ordered :
  forall (W : Type) (rt : Runtime W) (threads : list tid) (command : string)
         (silent : bool) (timeout : Z) (s : state W),
    thread_laws rt ->
    on_sigint s = SignalHandler ->
    let stopped := stop_all_workers rt threads s in
    let restarted := restart_all_workers rt threads command silent timeout s in
    let ids := range (Z.of_nat (List.length threads)) in
    let stop_calls done :=
      ([EvPrint "Restarting all workers..."; EvFlagSet] ++ joins done)%list in
    (fst stopped = Ok tt
     /\ own (added s (snd stopped)) = (stop_calls threads ++ [EvFlagClear])%list
     /\ (forall w, rt_steps rt (world (snd stopped)) w -> all_finished rt threads w)
     /\ exists new_threads,
         fst restarted = Ok new_threads
         /\ own (added s (snd restarted))
            = (stop_calls threads ++ [EvFlagClear]
                 ++ starts command silent timeout ids new_threads)%list
         /\ own (added (snd stopped) (snd restarted))
            = starts command silent timeout ids new_threads
         /\ rt_steps rt (world (snd stopped)) (world (snd restarted)))
    \/ (fst stopped = Hang
        /\ fst restarted = Hang
        /\ snd restarted = snd stopped
        /\ exists done t rest,
            threads = (done ++ t :: rest)%list
            /\ own (added s (snd restarted))
               = (stop_calls done ++ [EvThreadJoin t false])%list).
Proof.
  intros W rt threads command silent timeout s L H stopped restarted ids stop_calls.
  subst stopped restarted ids stop_calls. cbv beta. unfold restart_all_workers.
  destruct (stop_all_workers_tidy rt threads s H)
    as (s1 & [(E1 & T1 & F1) | (E1 & done & t & rest & -> & T1)]).
  - left. rewrite (bind_ok _ _ _ E1), E1. cbn [fst snd].
    destruct (start_workers_tidy rt (range (Z.of_nat (List.length threads)))
                command silent timeout [] s1 (tidy_handler T1))
      as (nt & s2 & E2 & L2 & T2).
    rewrite E2. cbn [fst snd app].
    split; [reflexivity |]. split.
    { rewrite (tidy_added T1). same_list. }
    split.
    { intros w S. eapply all_finished_steps; eauto. }
    exists nt. split; [reflexivity |]. split.
    { rewrite (tidy_added (tidy_trans T1 T2)). same_list. }
    split; [exact (tidy_added T2) | exact (tidy_world T2)].
  - right. rewrite (bind_hang _ _ _ E1), E1. cbn [fst snd].
    repeat split. exists done, t, rest. split; [reflexivity |].
    rewrite (tidy_added T1). same_list.
Qed.

(** C8: the startup of [main] and every restart start the workers
    0, 1, ..., N-1 in this order, each start followed by a sleep of one
    second.  [range N] has [N] distinct entries, entry [k] being [k]; the
    startup returns [N] threads and leaves [signal_handler] installed; a
    restart of [N] threads whose joins return starts [N] threads again. *)
Theorem fleet_starts_in_order :
  forall (W : Type) (rt : Runtime W) (args : arguments) (s : state W),
    let n := instances args in
    let begun := starts (command args) (silent args) (no_inference_timeout args)
                   (range n) in
    (List.length (range n) = Z.to_nat n
     /\ NoDup (range n)
     /\ forall k, (k < Z.to_nat n)%nat -> nth_error (range n) k = Some (Z.of_nat k))
    /\ (exists threads s',
           main_startup rt args s = (Ok threads, s')
           /\ List.length threads = Z.to_nat n
           /\ on_sigint s' = SignalHandler
           /\ own (added s s')
              = (EvSignalInstall SignalHandler
                   :: (if silent args then []
                       else [EvPrint ("Starting " ++ str_of_Z n ++ " workers")])
                   ++ begun threads)%list)
    /\ (forall threads s1,
           on_sigint s1 = SignalHandler ->
           List.length threads = Z.to_nat n ->
           fst (stop_all_workers rt threads s1) = Ok tt ->
           exists new_threads s',
             restart_all_workers rt threads (command args) (silent args)
               (no_inference_timeout args) s1 = (Ok new_threads, s')
             /\ List.length new_threads = Z.to_nat n
             /\ on_sigint s' = SignalHandler
             /\ own (added (snd (stop_all_workers rt threads s1)) s')
                = begun new_threads).
Proof.
  intros W rt args s n begun. subst n begun. cbv beta.
  assert (Len : List.length (range (instances args)) = Z.to_nat (instances args))
    by (unfold range; now rewrite length_map, length_seq).
  split; [| split].
  - split; [exact Len |]. split; [apply range_NoDup | apply range_nth].
  - unfold main_startup.
    destruct (signal_signal_tidy rt s) as (s1 & E1 & T1).
    rewrite (bind_ok _ _ _ E1).
    assert (P : exists s2,
               when (negb (silent args))
                 (main_print rt ("Starting " ++ str_of_Z (instances args) ++ " workers")) s1
               = (Ok tt, s2)
               /\ tidy rt s1 s2
                    (if silent args then []
                     else [EvPrint ("Starting " ++ str_of_Z (instances args) ++ " workers")])).
    { destruct (silent args); cbn [negb when].
      - exists s1. split; [reflexivity |]. apply tidy_refl, (tidy_handler T1).
      - apply main_print_tidy, (tidy_handler T1). }
    destruct P as (s2 & E2 & T2). rewrite (bind_ok _ _ _ E2).
    destruct (start_workers_tidy rt (range (instances args)) (command args)
                (silent args) (no_inference_timeout args) [] s2 (tidy_handler T2))
      as (nt & s3 & E3 & L3 & T3).
    exists nt, s3. split; [exact E3 |]. split; [now rewrite L3 |].
    split; [exact (tidy_handler T3) |].
    rewrite (tidy_added (tidy_trans (tidy_trans T1 T2) T3)). same_list.
  - intros threads s1 H Lt S. unfold restart_all_workers.
    destruct (stop_all_workers rt threads s1) as [r s2] eqn:E1.
    cbn [fst snd] in *. subst r. rewrite (bind_ok _ _ _ E1).
    rewrite Lt, range_of_length.
    destruct (stop_all_workers_tidy rt threads s1 H)
      as (s2' & [(E1' & T1 & _) | (E1' & _)]); rewrite E1 in E1';
      [| discriminate].
    injection E1' as <-.
    destruct (start_workers_tidy rt (range (instances args)) (command args)
                (silent args) (no_inference_timeout args) [] s2 (tidy_handler T1))
      as (nt & s3 & E3 & L3 & T3).
    exists nt, s3. split; [exact E3 |]. split; [now rewrite L3 |].
    split; [exact (tidy_handler T3) | exact (tidy_added T3)].
Qed.

(** ** What the main thread does while it waits *)





Section WaitFacts.

Context {W : Type}.
Variable rt : Runtime W.

Lemma restart_all_workers_tidy threads c sl tm (s : state W) :
  on_sigint s = SignalHandler ->
  exists s',
    (exists nt,
        restart_all_workers rt threads c sl tm s = (Ok nt, s')
        /\ tidy rt s s'
             ([EvPrint "Restarting all workers..."; EvFlagSet]
                ++ joins threads ++ [EvFlagClear]
                ++ starts c sl tm (range (Z.of_nat (List.length threads))) nt))
    \/ (restart_all_workers rt threads c sl tm s = (Hang, s')
        /\ exists done t rest,
            threads = (done ++ t :: rest)%list
            /\ tidy rt s s' ([EvPrint "Restarting all workers..."; EvFlagSet]
                              ++ joins done ++ [EvThreadJoin t false])).
Proof.
  intros H. unfold restart_all_workers.
  destruct (stop_all_workers_tidy rt threads s H)
    as (s1 & [(E1 & T1 & _) | (E1 & done & t & rest & -> & T1)]).
  - rewrite (bind_ok _ _ _ E1).
    destruct (start_workers_tidy rt (range (Z.of_nat (List.length threads)))
                c sl tm [] s1 (tidy_handler T1)) as (nt & s2 & E2 & _ & T2).
    exists s2. left. exists nt. split; [exact E2 |].
    pose proof (tidy_trans T1 T2) as T.
    replace (([EvPrint "Restarting all workers..."; EvFlagSet]
                ++ joins threads ++ [EvFlagClear])
               ++ starts c sl tm (range (Z.of_nat (List.length threads))) nt)%list
      with ([EvPrint "Restarting all workers..."; EvFlagSet]
              ++ joins threads ++ [EvFlagClear]
              ++ starts c sl tm (range (Z.of_nat (List.length threads))) nt)%list
      in T by same_list.
    exact T.
  - exists s1. right. rewrite (bind_hang _ _ _ E1). split; [reflexivity |].
    exists done, t, rest. split; [reflexivity | exact T1].
Qed.


End WaitFacts.




(** On the simulated fleet of the scenario: both joins return at the end of
    the children's streams, then the two new workers are started. *)
Lemma restart_cycle_is_ordered_witness :
  let s := first_tick scenario_args [] in
  let restarted := restart_all_workers Sim [0; 1]%nat echo_sleep false 1 s in
  fst restarted = Ok [2; 3]%nat
  /\ own (added s (snd restarted))
     = [EvPrint "Restarting all workers..."; EvFlagSet;
        EvThreadJoin 0%nat true; EvThreadJoin 1%nat true;
        EvFlagClear;
        EvThreadStart 0 echo_sleep false 1 2%nat; EvSleep 1;
        EvThreadStart 1 echo_sleep false 1 3%nat; EvSleep 1]
  /\ all_finished Sim [0; 1]%nat (world (snd restarted)).
Proof.
  cbv zeta.
  destruct (@restart_cycle_is_ordered fleet Sim [0; 1]%nat echo_sleep false 1
              (first_tick scenario_args []) (Fleet_laws shell 10) eq_refl)
    as [(_ & _ & F & nt & R & O & _ & S) | (Hg & _)].
  - split; [vm_compute; reflexivity |]. split; [vm_compute; reflexivity |].
    apply F, S.
  - vm_compute in Hg. discriminate.
Defined.

(** On the simulated fleet of the scenario: the startup, then the first
    restart. *)
Lemma fleet_starts_in_order_witness :
  let s1 := first_tick scenario_args [] in
  exists new_threads s',
    restart_all_workers Sim [0; 1]%nat echo_sleep false 1 s1 = (Ok new_threads, s')
    /\ List.length new_threads = 2%nat
    /\ on_sigint s' = SignalHandler
    /\ own (added (snd (stop_all_workers Sim [0; 1]%nat s1)) s')
       = starts echo_sleep false 1 [0; 1] new_threads.
Proof.
  cbv zeta.
  apply (proj2 (proj2 (@fleet_starts_in_order fleet Sim scenario_args
                         (fleet_boot []))));
    vm_compute; reflexivity.
Defined.

(** ** An interrupt *)

Section InterruptFacts.

Context {W : Type}.
Variable rt : Runtime W.

Lemma fleet_startup_returns args (s : state W) :
  exists threads s',
    main_startup rt args s = (Ok threads, s') /\ on_sigint s' = SignalHandler.
Proof.
  unfold main_startup.
  destruct (signal_signal_tidy rt s) as (s1 & E1 & T1).
  rewrite (bind_ok _ _ _ E1).
  assert (P : exists s2,
             when (negb (silent args))
               (main_print rt ("Starting " ++ str_of_Z (instances args) ++ " workers")) s1
             = (Ok tt, s2) /\ on_sigint s2 = SignalHandler).
  { destruct (silent args); cbn [negb when].
    - exists s1. split; [reflexivity | exact (tidy_handler T1)].
    - destruct (main_print_tidy rt ("Starting " ++ str_of_Z (instances args) ++ " workers")
                  s1 (tidy_handler T1)) as (s2 & E2 & T2).
      exists s2. split; [exact E2 | exact (tidy_handler T2)]. }
  destruct P as (s2 & E2 & H2). rewrite (bind_ok _ _ _ E2).
  destruct (start_workers_tidy rt (range (instances args)) (command args)
              (silent args) (no_inference_timeout args) [] s2 H2)
    as (nt & s3 & E3 & _ & T3).
  exists nt, s3. split; [exact E3 | exact (tidy_handler T3)].
Qed.

Lemma main_loop_goes_on fuel args : forall threads (s : state W),
  on_sigint s = SignalHandler ->
  fst (main_loop rt fuel args threads s) = Hang
  \/ fst (main_loop rt fuel args threads s) = OutOfFuel.
Proof.
  induction fuel as [| k IH]; intros threads s H; [now right |].
  cbn [main_loop].
  destruct (main_sleep_tidy rt 300 s H) as (s1 & E1 & T1).
  destruct (restart_all_workers_tidy rt threads (command args) (silent args)
              (no_inference_timeout args) s1 (tidy_handler T1))
    as (s2 & [(nt & E2 & T2) | (E2 & _)]).
  - assert (E : interruptible
                  (main_sleep rt 300 ;;
                   restart_all_workers rt threads (command args) (silent args)
                     (no_inference_timeout args)) s = (Ok (Some nt), s2)).
    { unfold interruptible. apply try_except_ok.
      erewrite bind_ok; [reflexivity |].
      now rewrite (bind_ok _ _ _ E1). }
    rewrite (bind_ok _ _ _ E). apply IH, (tidy_handler T2).
  - assert (E : interruptible
                  (main_sleep rt 300 ;;
                   restart_all_workers rt threads (command args) (silent args)
                     (no_inference_timeout args)) s = (Hang, s2)).
    { unfold interruptible. apply try_except_hang.
      apply bind_hang. rewrite (bind_ok _ _ _ E1). exact E2. }
    rewrite (bind_hang _ _ _ E). now left.
Qed.

(** Once [signal_handler] is installed nothing raises [KeyboardInterrupt]:
    [main] never reaches its [except] block and never returns. *)
Lemma main_never_returns fuel args (s : state W) :
  fst (main rt fuel args s) = Hang \/ fst (main rt fuel args s) = OutOfFuel.
Proof.
  unfold main.
  destruct (fleet_startup_returns args s) as (threads & s' & E & H).
  rewrite (bind_ok _ _ _ E). now apply main_loop_goes_on.
Qed.

End InterruptFacts.

(** C1, where the code departs from it: two workers, a SIGINT ten seconds
    after the start.  [signal_handler] prints its line and sets the flag,
    and [main] goes on sleeping: with the handler installed nothing raises
    [KeyboardInterrupt], so the block that would join the workers and return
    is never entered.  At the end of the 300 seconds the restart joins the
    workers, clears the flag and starts two new ones; whatever the number of
    turns allowed, [main] has not returned. *)
Theorem sigint_does_not_stop_the_fleet :
  let interrupted := fleet_boot [seconds 10] in
  let run := main Sim 1 scenario_args interrupted in
  (forall fuel,
      fst (main Sim fuel scenario_args interrupted) = Hang
      \/ fst (main Sim fuel scenario_args interrupted) = OutOfFuel)
  /\ fst run = OutOfFuel
  /\ hist (snd run)
     = [EvSignalInstall SignalHandler;
        EvPrint "Starting 2 workers";
        EvThreadStart 0 echo_sleep false 1 0%nat; EvSleep 1;
        EvThreadStart 1 echo_sleep false 1 1%nat; EvSleep 1;
        EvSleep 300;
        handled;
        EvPrint "Restarting all workers..."; EvFlagSet;
        EvThreadJoin 0%nat true; EvThreadJoin 1%nat true;
        EvFlagClear;
        EvThreadStart 0 echo_sleep false 1 2%nat; EvSleep 1;
        EvThreadStart 1 echo_sleep false 1 3%nat; EvSleep 1]
  /\ f_stop_from (world (snd run)) = None
  /\ map (fun t => rt_status Sim t (world (snd run))) [0; 1; 2; 3]%nat
     = [Finished; Finished; Running; Running].
Proof.
  cbv zeta. split; [intros fuel; apply main_never_returns |].
  repeat split; vm_compute; reflexivity.
Qed.

(** * Further properties of the code *)

(** ** Monitors *)

Section TrackFacts.

Context {Q : Type}.
Variable step : Q -> event -> option Q.

Lemma watch_app q h1 h2 :
  watch step q (h1 ++ h2)
  = match watch step q h1 with
    | Some q' => watch step q' h2
    | None => None
    end.
Proof.
  revert q. induction h1 as [| e r IH]; intros q; cbn [watch app]; auto.
  destruct (step q e); auto.
Qed.

Lemma tracks_const {W A} q (r : res A) (post : res A -> Q -> Prop) :
  post r q -> tracks step q (fun s : state W => (r, s)) post.
Proof.
  intros P s. exists [], q. cbn. rewrite app_nil_r. auto.
Qed.

Lemma tracks_call {W A} q (op : W -> A * W) (ev : A -> event)
  (post : res A -> Q -> Prop) :
  (forall a, exists q', step q (ev a) = Some q' /\ post (Ok a) q') ->
  tracks step q (call op ev) post.
Proof.
  intros H s. unfold call. destruct (op (world s)) as [a w].
  destruct (H a) as (q' & S & P). exists [ev a], q'. cbn. rewrite S. auto.
Qed.

Lemma tracks_bind {W A B} q (m : M W A) (k : A -> M W B)
  (mid : res A -> Q -> Prop) (post : res B -> Q -> Prop) :
  tracks step q m mid ->
  (forall a q1, mid (Ok a) q1 -> tracks step q1 (k a) post) ->
  (forall e q1, mid (Raise e) q1 -> post (Raise e) q1) ->
  (forall q1, mid Hang q1 -> post Hang q1) ->
  (forall q1, mid OutOfFuel q1 -> post OutOfFuel q1) ->
  tracks step q (bind m k) post.
Proof.
  intros Hm Hk He Hh Hf s. unfold bind.
  destruct (Hm s) as (h1 & q1 & E1 & W1 & P1).
  destruct (m s) as [[a | e | | ] s1]; cbn [fst snd] in *.
  - destruct (Hk a q1 P1 s1) as (h2 & q2 & E2 & W2 & P2).
    exists (h1 ++ h2)%list, q2. rewrite E2, E1, <- app_assoc, watch_app, W1. auto.
  - exists h1, q1. auto.
  - exists h1, q1. auto.
  - exists h1, q1. auto.
Qed.

Lemma tracks_try {W A} q (m : M W A) (h : exn -> M W A)
  (mid post : res A -> Q -> Prop) :
  tracks step q m mid ->
  (forall e q1, mid (Raise e) q1 -> tracks step q1 (h e) post) ->
  (forall a q1, mid (Ok a) q1 -> post (Ok a) q1) ->
  (forall q1, mid Hang q1 -> post Hang q1) ->
  (forall q1, mid OutOfFuel q1 -> post OutOfFuel q1) ->
  tracks step q (try_except m h) post.
Proof.
  intros Hm Hk Ho Hh Hf s. unfold try_except.
  destruct (Hm s) as (h1 & q1 & E1 & W1 & P1).
  destruct (m s) as [[a | e | | ] s1]; cbn [fst snd] in *.
  - exists h1, q1. auto.
  - destruct (Hk e q1 P1 s1) as (h2 & q2 & E2 & W2 & P2).
    exists (h1 ++ h2)%list, q2. rewrite E2, E1, <- app_assoc, watch_app, W1. auto.
  - exists h1, q1. auto.
  - exists h1, q1. auto.
Qed.

Lemma tracks_weaken {W A} q (m : M W A) (P P' : res A -> Q -> Prop) :
  tracks step q m P -> (forall r q', P r q' -> P' r q') -> tracks step q m P'.
Proof.
  intros H I s. destruct (H s) as (h & q' & E & Wt & Pq). exists h, q'. auto.
Qed.

Lemma tracks_added {W A} q (m : M W A) (post : res A -> Q -> Prop) (s : state W) :
  tracks step q m post ->
  exists q', watch step q (added s (snd (m s))) = Some q' /\ post (fst (m s)) q'.
Proof.
  intros H. destruct (H s) as (h & q' & E & Wt & P). exists q'.
  unfold added. rewrite E, skipn_app, skipn_all, Nat.sub_diag. auto.
Qed.

Lemma stays_call {W A} q (op : W -> A * W) (ev : A -> event) :
  (forall a, step q (ev a) = Some q) -> tracks step q (call op ev) (passes q).
Proof.
  intros H. apply tracks_call. intros a. exists q. split; [apply H |].
  split; eauto.
Qed.

Lemma passes_stays {W A} q (m : M W A) :
  tracks step q m (passes q) -> tracks step q m (stays q).
Proof.
  intros H. eapply tracks_weaken; [exact H |].
  intros r q' [-> [a ->]]. split; [reflexivity | exact I].
Qed.

Lemma stays_lift {W A} q (o : outcome A) : tracks step q (@lift W A o) (stays q).
Proof. destruct o; apply tracks_const; split; auto; exact I. Qed.

Lemma stays_bind {W A B} q (m : M W A) (k : A -> M W B) :
  tracks step q m (stays q) ->
  (forall a, tracks step q (k a) (stays q)) ->
  tracks step q (bind m k) (stays q).
Proof.
  intros Hm Hk. eapply tracks_bind; [exact Hm | | | |].
  - intros a q1 [-> _]. apply Hk.
  - intros e q1 [-> Hb]. split; auto.
  - intros q1 [_ []].
  - intros q1 [_ []].
Qed.

Lemma passes_bind {W A B} q (m : M W A) (k : A -> M W B) :
  tracks step q m (passes q) ->
  (forall a, tracks step q (k a) (passes q)) ->
  tracks step q (bind m k) (passes q).
Proof.
  intros Hm Hk. eapply tracks_bind; [exact Hm | | | |].
  - intros a q1 [-> _]. apply Hk.
  - intros e q1 [_ [a E]]. discriminate.
  - intros q1 [_ [a E]]. discriminate.
  - intros q1 [_ [a E]]. discriminate.
Qed.

Lemma stays_for_each {W A} q (xs : list A) (f : A -> M W unit) :
  (forall x, tracks step q (f x) (stays q)) ->
  tracks step q (for_each xs f) (stays q).
Proof.
  intros H. induction xs as [| x r IH]; cbn [for_each].
  - apply tracks_const. split; auto. exact I.
  - apply stays_bind; auto.
Qed.

End TrackFacts.

(** ** The protocol of [terminate_process], failures included *)

Section TreeFacts.

Context {W : Type}.
Variable os : OS W.
Variable p : pid.
Variable worker_id : Z.

Lemma failing_call_advances {A} q (op : W -> outcome A * W)
  (ev : outcome A -> event) (next : A -> phase) :
  (forall r, tree_step p q (ev r) = if_done r next) ->
  tracks (tree_step p) q (r <- call op ev ;; lift r) (advance next).
Proof.
  intros H s. unfold bind, call.
  destruct (op (world s)) as [[a | e] w]; cbn [lift ret raise fst snd hist].
  - exists [ev (Done a)], (next a). cbn [watch]. rewrite H. cbn. auto.
  - exists [ev (Fails e)], Over. cbn [watch]. rewrite H. cbn. auto.
Qed.

Lemma print_ignored q line : tracks (tree_step p) q (print os line) (passes q).
Proof. apply stays_call. reflexivity. Qed.

Lemma lookup_advances :
  tracks (tree_step p) Lookup (psutil_Process os p)
    (fun r q => advance (fun _ => Enumerate) r q /\ forall a, r = Ok a -> a = p).
Proof.
  intros s. unfold psutil_Process, bind, call.
  destruct (ps_process os p (world s)) as [[[] | e] w];
    cbn [lift ret raise fst snd hist].
  - exists [EvProcess p (Done tt)], Enumerate. cbn. rewrite Z.eqb_refl.
    repeat split. intros a E. now injection E.
  - exists [EvProcess p (Fails e)], Over. cbn. rewrite Z.eqb_refl.
    repeat split. discriminate.
Qed.

Lemma children_signalled todo : forall cs,
  tracks (tree_step p) (Signal todo cs) (for_each todo (proc_terminate os))
    (advance (fun _ => Signal [] cs)).
Proof.
  induction todo as [| c r IH]; intros cs; cbn [for_each].
  - apply tracks_const. reflexivity.
  - eapply tracks_bind.
    + apply (@failing_call_advances _ (Signal (c :: r) cs)
               (ps_terminate os c) (EvTerminate c) (fun _ => Signal r cs)).
      intros a. cbn. now rewrite Z.eqb_refl.
    + intros [] q1 ->. apply IH.
    + intros [e |] q1 A; exact A.
    + intros q1 [].
    + intros q1 [].
Qed.

Lemma survivors_killed todo :
  tracks (tree_step p) (Kill todo)
    (for_each todo (fun c =>
       print os (worker_tag worker_id ++ "Force killing process " ++ str_of_Z c) ;;
       proc_kill os c))
    (advance (fun _ => Kill [])).
Proof.
  induction todo as [| c r IH]; cbn [for_each].
  - apply tracks_const. reflexivity.
  - eapply tracks_bind.
    + eapply tracks_bind; [apply print_ignored | | | |].
      * intros [] q1 [-> _].
        apply (@failing_call_advances _ (Kill (c :: r))
                 (ps_kill os c) (EvKill c) (fun _ => Kill r)).
        intros a. cbn. now rewrite Z.eqb_refl.
      * intros e q1 [_ [a E]]. discriminate.
      * intros q1 [_ [a E]]. discriminate.
      * intros q1 [_ [a E]]. discriminate.
    + intros [] q1 ->. apply IH.
    + intros [e |] q1 A; exact A.
    + intros q1 [].
    + intros q1 [].
Qed.

Lemma same_pids_refl l : same_pids l l = true.
Proof. induction l as [| x r IH]; cbn; auto. now rewrite Z.eqb_refl. Qed.

Lemma terminate_tree_advances :
  tracks (tree_step p) Lookup (terminate_tree os p worker_id)
    (advance (fun _ => Kill [])).
Proof.
  unfold terminate_tree.
  eapply tracks_bind;
    [ apply lookup_advances | | intros [e |] q1 [A _]; exact A
    | intros q1 [[] _] | intros q1 [[] _] ].
  intros parent q1 [-> Hp]. rewrite (Hp parent eq_refl). clear Hp parent.
  eapply tracks_bind;
    [ apply (@failing_call_advances _ Enumerate (ps_children os p)
               (EvChildren p) (fun cs => Signal cs cs));
      intros a; cbn; now rewrite Z.eqb_refl
    | | intros [e |] q1 A; exact A | intros q1 [] | intros q1 [] ].
  intros cs q1 ->.
  eapply tracks_bind;
    [ apply children_signalled | | intros [e |] q1 A; exact A
    | intros q1 [] | intros q1 [] ].
  intros [] q1 ->.
  eapply tracks_bind;
    [ apply (@failing_call_advances _ (Signal [] cs) (ps_terminate os p)
               (EvTerminate p) (fun _ => Wait cs));
      intros a; cbn; now rewrite Z.eqb_refl
    | | intros [e |] q1 A; exact A | intros q1 [] | intros q1 [] ].
  intros [] q1 ->.
  eapply tracks_bind;
    [ apply (@failing_call_advances _ (Wait cs) (ps_wait_procs os (cs ++ [p]) 3)
               (EvWaitProcs (cs ++ [p]) 3) (fun ga => Kill (snd ga)));
      intros a; cbn; now rewrite same_pids_refl
    | | intros [e |] q1 A; exact A | intros q1 [] | intros q1 [] ].
  intros ga q1 ->. apply survivors_killed.
Qed.

Lemma terminate_process_advances :
  tracks (tree_step p) Lookup (terminate_process os (Some p) worker_id)
    (fun r q => r = Ok tt /\ (q = Kill [] \/ q = Over)).
Proof.
  unfold terminate_process.
  eapply tracks_bind;
    [ apply print_ignored | | intros e q1 [_ [a E]]; discriminate
    | intros q1 [_ [a E]]; discriminate | intros q1 [_ [a E]]; discriminate ].
  intros [] q0 [-> _].
  eapply tracks_bind with
    (mid := fun (r : res unit) q => r = Ok tt /\ (q = Kill [] \/ q = Over));
    [ | | intros e q1 [E _]; discriminate
    | intros q1 [E _]; discriminate | intros q1 [E _]; discriminate ].
  - eapply tracks_try;
      [ apply terminate_tree_advances | | | intros q1 [] | intros q1 [] ].
    + intros [[m | m] |] q1 A; cbn in A; try contradiction; subst q1;
        (eapply tracks_weaken; [apply print_ignored |]);
        intros r q' [-> [[] ->]]; auto.
    + intros [] q1 A. cbn in A. auto.
  - intros [] q1 [_ Hq].
    eapply tracks_weaken; [apply print_ignored |].
    intros r q' [-> [[] ->]]. auto.
Qed.

End TreeFacts.

(** X1: whatever the operating system answers, and whether a call fails or
    not, the calls of [terminate_process] on a process follow its protocol
    and stop at the first call that raises: [psutil.Process] on the process,
    the enumeration of its descendants, the graceful signal to each of them
    in the order of the enumeration, then to the parent, one wait of 3
    seconds on all of them, and the forced kill of the processes that this
    wait reported alive, in that order.  No process outside the enumeration
    is ever signalled, no kill precedes the wait, and nothing but log lines
    follows a failure. *)
Theorem terminate_process_keeps_to_protocol :
  forall (W : Type) (os : OS W) (p : pid) (worker_id : Z) (s : state W),
    let done := terminate_process os (Some p) worker_id s in
    fst done = Ok tt
    /\ exists q,
        watch (tree_step p) Lookup (added s (snd done)) = Some q
        /\ (q = Kill [] \/ q = Over).
Proof.
  intros W os p worker_id s done. subst done.
  destruct (tracks_added s (terminate_process_advances os p worker_id))
    as (q & Wq & E & Hq).
  split; [exact E |]. exists q. auto.
Qed.

(** ** [terminate_process] under any monitor *)

Section TerminateTracked.

Context {W : Type} {Q : Type}.
Variable os : OS W.
Variable step : Q -> event -> option Q.

Lemma failing_call_stays {A} q (op : W -> outcome A * W) (ev : outcome A -> event) :
  (forall r, step q (ev r) = Some q) ->
  tracks step q (r <- call op ev ;; lift r) (stays q).
Proof.
  intros H. apply stays_bind.
  - apply passes_stays, stays_call, H.
  - intros r. apply stays_lift.
Qed.

(** When the monitor moves from [q0] to [q] at [psutil.Process] and stays
    in [q] at every later call, that is where it is when
    [terminate_process] returns. *)
Lemma terminate_process_tracked q0 q p worker_id :
  (forall line, step q0 (EvPrint line) = Some q0) ->
  (forall r, step q0 (EvProcess p r) = Some q) ->
  (forall e, is_tree_call e = true -> step q e = Some q) ->
  tracks step q0 (terminate_process os (Some p) worker_id)
    (fun r q' => r = Ok tt /\ q' = q).
Proof.
  intros Hp Hl Hn. unfold terminate_process.
  assert (Print : forall line, tracks step q (print os line) (passes q))
    by (intros line; apply stays_call; intros _; now apply Hn).
  eapply tracks_bind;
    [ apply stays_call; intros _; apply Hp | | intros e q1 [_ [a E]]; discriminate
    | intros q1 [_ [a E]]; discriminate | intros q1 [_ [a E]]; discriminate ].
  intros [] q1 [-> _].
  eapply tracks_bind with (mid := fun (r : res unit) q' => r = Ok tt /\ q' = q);
    [ | | intros e q1 [E _]; discriminate
    | intros q1 [E _]; discriminate | intros q1 [E _]; discriminate ].
  - eapply tracks_try with (mid := stays q);
      [ | | intros [] q1 [-> _]; auto | intros q1 [_ []] | intros q1 [_ []] ].
    + unfold terminate_tree, psutil_Process.
      eapply tracks_bind with (mid := stays q);
        [ | | intros e q1 S; exact S | intros q1 [_ []] | intros q1 [_ []] ].
      * eapply tracks_bind with (mid := passes q);
          [ apply tracks_call; intros a; exists q; split;
            [apply Hl | split; eauto]
          | | intros e q1 [_ [a E]]; discriminate
          | intros q1 [_ [a E]]; discriminate
          | intros q1 [_ [a E]]; discriminate ].
        intros r q1 [-> _]. apply stays_bind; [apply stays_lift |].
        intros _. apply tracks_const. split; auto. exact I.
      * intros parent q1 [-> _].
        apply stays_bind;
          [apply failing_call_stays; intros r; now apply Hn |]. intros cs.
        apply stays_bind.
        { apply stays_for_each. intros c.
          apply failing_call_stays. intros r. now apply Hn. }
        intros _. apply stays_bind;
          [apply failing_call_stays; intros r; now apply Hn |]. intros _.
        apply stays_bind;
          [apply failing_call_stays; intros r; now apply Hn |]. intros ga.
        apply stays_for_each. intros c. apply stays_bind.
        { apply passes_stays, Print. }
        intros _. apply failing_call_stays. intros r. now apply Hn.
    + intros [[m | m] |] q1 [-> Hb]; try contradiction;
        (eapply tracks_weaken; [apply Print |]);
        intros r q' [-> [[] ->]]; auto.
  - intros [] q1 [_ ->].
    eapply tracks_weaken; [apply Print |].
    intros r q' [-> [[] ->]]. auto.
Qed.

End TerminateTracked.

(** ** The child a worker holds *)

Section OwnFacts.

Context {W : Type}.
Variable os : OS W.

Lemma own_free {A} held (op : W -> A * W) (ev : A -> event) :
  (forall a, own_step held (ev a) = Some held) ->
  tracks own_step held (call op ev) (passes held).
Proof. apply stays_call. Qed.

Lemma own_terminate p worker_id :
  tracks own_step (Some p) (terminate_process os (Some p) worker_id)
    (fun r held => r = Ok tt /\ held = None).
Proof.
  apply terminate_process_tracked.
  - reflexivity.
  - intros r. cbn. now rewrite Z.eqb_refl.
  - intros [] E; try discriminate; reflexivity.
Qed.

Lemma own_spawn command :
  tracks own_step None (spawn os command)
    (fun r held => match r with
                   | Ok pt => held = Some (fst pt)
                   | Raise (PyException _) => held = None
                   | _ => False
                   end).
Proof.
  unfold spawn, Popen.
  eapply tracks_bind with
    (mid := fun (r : res pid) held => match r with
                                      | Ok p => held = Some p
                                      | Raise (PyException _) => held = None
                                      | _ => False
                                      end);
    [ | | intros [e |] q1 H; exact H | intros q1 [] | intros q1 [] ].
  - intros s. unfold bind, call.
    destruct (os_popen os command (world s)) as [[p | e] w];
      cbn [lift ret raise fst snd hist].
    + exists [EvPopen command (Done p)], (Some p). cbn. auto.
    + exists [EvPopen command (Fails e)], None. cbn. auto.
  - intros p q1 ->.
    eapply tracks_bind;
      [ apply (@own_free _ (Some p) (os_now os) EvNow); reflexivity
      | | intros e q1 [_ [a E]]; discriminate
      | intros q1 [_ [a E]]; discriminate | intros q1 [_ [a E]]; discriminate ].
    intros t q1 [-> _]. apply tracks_const. reflexivity.
Qed.

Lemma own_ensure_process command worker_id l :
  tracks own_step (process l) (ensure_process os command worker_id l)
    (fun r held => match r with
                   | Ok pt => held = Some (fst pt)
                   | Raise (PyException _) => held = None
                   | _ => False
                   end).
Proof.
  unfold ensure_process. destruct (process l) as [p |]; [| apply own_spawn].
  eapply tracks_bind;
    [ apply (@own_free _ (Some p) (os_poll os p) (EvPoll p));
      intros a; cbn; now rewrite Z.eqb_refl
    | | intros e q1 [_ [a E]]; discriminate
    | intros q1 [_ [a E]]; discriminate | intros q1 [_ [a E]]; discriminate ].
  intros [rc |] q1 [-> _]; [| apply tracks_const; reflexivity].
  eapply tracks_bind;
    [ apply (@own_free _ (Some p) (fun w => (tt, os_print os _ w)) (fun _ => EvPrint _));
      reflexivity
    | | intros e q1 [_ [a E]]; discriminate
    | intros q1 [_ [a E]]; discriminate | intros q1 [_ [a E]]; discriminate ].
  intros [] q1 [-> _].
  eapply tracks_bind;
    [ apply own_terminate | | intros e q1 [E _]; discriminate
    | intros q1 [E _]; discriminate | intros q1 [E _]; discriminate ].
  intros [] q1 [_ ->]. apply own_spawn.
Qed.

Lemma own_read_output worker_id silent timeout p lit :
  tracks own_step (Some p) (read_output os worker_id silent timeout p lit)
    (fun r held => match r with
                   | Ok l => held = process l
                   | Raise (PyException _) | Hang => held = Some p
                   | _ => False
                   end).
Proof.
  unfold read_output.
  assert (Free : forall {A} held (op : W -> A * W) (ev : A -> event) (B : Type)
                        (k : A -> M W B) post,
             (forall a, own_step held (ev a) = Some held) ->
             (forall a, tracks own_step held (k a) post) ->
             tracks own_step held (bind (call op ev) k) post).
  { intros A held op ev B k post Hn Hk.
    eapply tracks_bind;
      [ apply own_free, Hn | | intros e q1 [_ [a E]]; discriminate
      | intros q1 [_ [a E]]; discriminate | intros q1 [_ [a E]]; discriminate ].
    intros a q1 [-> _]. apply Hk. }
  eapply tracks_bind with
    (mid := fun (r : res string) held =>
              held = Some p /\ match r with
                               | Ok _ | Raise (PyException _) | Hang => True
                               | _ => False
                               end);
    [ | | intros [e |] q1 [-> H]; [reflexivity | contradiction]
    | intros q1 [-> _]; reflexivity | intros q1 [_ []] ].
  - intros s. unfold stdout_readline, bind, call.
    destruct (os_readline os p (world s)) as [[out | e |] w];
      cbn [ret raise hang fst snd hist];
      eexists [EvReadline p _], (Some p); cbn; rewrite Z.eqb_refl; auto.
  - intros output q1 [-> _]. destruct (nonempty output).
    + eapply tracks_bind with (mid := passes (Some p));
        [ | | intros e q1 [_ [a E]]; discriminate
        | intros q1 [_ [a E]]; discriminate | intros q1 [_ [a E]]; discriminate ].
      * destruct silent; cbn [negb when].
        -- apply tracks_const. split; eauto.
        -- apply own_free. reflexivity.
      * intros [] q1 [-> _]. destruct (contains _ output).
        -- apply Free; [reflexivity |]. intros t. apply tracks_const. reflexivity.
        -- apply tracks_const. reflexivity.
    + apply Free; [intros a; cbn; now rewrite Z.eqb_refl |].
      intros [rc |]; [apply tracks_const; reflexivity |].
      apply Free; [reflexivity |]. intros t.
      destruct (t - lit >? timedelta_minutes timeout);
        [| apply tracks_const; reflexivity].
      apply Free; [reflexivity |]. intros _.
      eapply tracks_bind;
        [ apply own_terminate | | intros e q1 [E _]; discriminate
        | intros q1 [E _]; discriminate | intros q1 [E _]; discriminate ].
      intros [] q1 [_ ->].
      apply Free; [reflexivity |]. intros t'. apply tracks_const. reflexivity.
Qed.

Lemma own_read_step worker_id silent timeout p lit :
  tracks own_step (Some p) (read_step os worker_id silent timeout p lit)
    (fun r held => match r with
                   | Ok l => held = process l
                   | Hang => held <> None
                   | _ => False
                   end).
Proof.
  unfold read_step.
  eapply tracks_try;
    [ apply own_read_output | | intros l q1 H; exact H
    | intros q1 ->; discriminate | intros q1 [] ].
  intros [e |] q1 H; [| contradiction]. subst q1.
  eapply tracks_bind;
    [ apply (@own_free _ (Some p) (fun w => (tt, os_print os _ w)) (fun _ => EvPrint _));
      reflexivity
    | | intros e' q1 [_ [a E]]; discriminate
    | intros q1 [_ [a E]]; discriminate | intros q1 [_ [a E]]; discriminate ].
  intros [] q1 [-> _].
  eapply tracks_bind;
    [ apply own_terminate | | intros e' q1 [E _]; discriminate
    | intros q1 [E _]; discriminate | intros q1 [E _]; discriminate ].
  intros [] q1 [_ ->].
  eapply tracks_bind;
    [ apply (@own_free _ None (fun w => (tt, os_sleep os 5 w)) (fun _ => EvSleep 5));
      reflexivity
    | | intros e' q1 [_ [a E]]; discriminate
    | intros q1 [_ [a E]]; discriminate | intros q1 [_ [a E]]; discriminate ].
  intros [] q1 [-> _]. apply tracks_const. reflexivity.
Qed.

Lemma own_worker_loop fuel command worker_id silent timeout : forall l,
  tracks own_step (process l)
    (worker_loop os fuel command worker_id silent timeout l)
    (fun r held => match r with
                   | Ok l' => held = process l'
                   | Raise (PyException _) => held = None
                   | Hang => held <> None
                   | OutOfFuel => True
                   | _ => False
                   end).
Proof.
  induction fuel as [| k IH]; intros l; cbn [worker_loop].
  - apply tracks_const. exact I.
  - eapply tracks_bind;
      [ apply (@own_free _ (process l) (os_is_set os) EvIsSet); reflexivity
      | | intros e q1 [_ [a E]]; discriminate
      | intros q1 [_ [a E]]; discriminate | intros q1 [_ [a E]]; discriminate ].
    intros [|] q1 [-> _]; [apply tracks_const; reflexivity |].
    eapply tracks_bind with
      (mid := fun (r : res locals) held =>
                match r with
                | Ok l' => held = process l'
                | Raise (PyException _) => held = None
                | Hang => held <> None
                | _ => False
                end);
      [ | intros l' q1 ->; apply IH | intros e q1 H; exact H
      | intros q1 H; exact H | intros q1 [] ].
    unfold iteration.
    eapply tracks_bind;
      [ apply own_ensure_process | | intros e q1 H; exact H
      | intros q1 [] | intros q1 [] ].
    intros [p t] q1 ->. cbn [fst snd].
    eapply tracks_weaken; [apply own_read_step |].
    intros [l' | e | | ] held H; auto; contradiction.
Qed.

End OwnFacts.

(** X2: a worker holds at most one child at a time, and lets none go
    unattended.  In every run of [run_worker], whatever the operating system
    answers: [Popen] succeeds only while the worker holds no child; the
    worker polls and reads only the child it holds; [terminate_process] is
    called only on that child, and the worker holds none afterwards.  When
    [run_worker] returns, or raises after a failed spawn, every child it
    spawned has been passed to [terminate_process]; when it is blocked in a
    read, it is the read of the child it holds. *)
Theorem worker_holds_one_child :
  forall (W : Type) (os : OS W) (fuel : nat) (command : string) (worker_id : Z)
         (silent : bool) (timeout : Z) (s : state W),
    let run := run_worker os fuel command worker_id silent timeout s in
    exists held,
      watch own_step None (added s (snd run)) = Some held
      /\ match fst run with
         | Ok _ | Raise _ => held = None
         | Hang => held <> None
         | OutOfFuel => True
         end.
Proof.
  intros W os fuel command worker_id silent timeout s run. subst run.
  assert (T : tracks own_step None
                (run_worker os fuel command worker_id silent timeout)
                (fun r held => match r with
                               | Ok _ | Raise _ => held = None
                               | Hang => held <> None
                               | OutOfFuel => True
                               end)).
  { unfold run_worker.
    eapply tracks_bind;
      [ apply (@own_free _ _ None (os_now os) EvNow); reflexivity
      | | intros e q1 [_ [a E]]; discriminate
      | intros q1 [_ [a E]]; discriminate | intros q1 [_ [a E]]; discriminate ].
    intros t0 q1 [-> _].
    eapply tracks_bind;
      [ apply (own_worker_loop os fuel command worker_id silent timeout
                 {| process := None; last_inference_time := t0 |})
      | | intros [e |] q1 H; [exact H | contradiction]
      | intros q1 H; exact H | intros q1 H; exact H ].
    intros l q1 ->. destruct (process l) as [p |];
      [| apply tracks_const; reflexivity].
    eapply tracks_bind;
      [ apply (@own_free _ _ (Some p) (fun w => (tt, os_print os _ w))
                 (fun _ => EvPrint _)); reflexivity
      | | intros e q1 [_ [a E]]; discriminate
      | intros q1 [_ [a E]]; discriminate | intros q1 [_ [a E]]; discriminate ].
    intros [] q1 [-> _].
    eapply tracks_weaken; [apply own_terminate |].
    intros r held [-> ->]. reflexivity. }
  destruct (tracks_added s T) as (held & Wh & P). exists held. auto.
Qed.

(** ** The flag and the turns of the loop *)

Section FlagFacts.

Context {W : Type}.
Variable os : OS W.

Lemma flag_free {A B} q (op : W -> A * W) (ev : A -> event) (k : A -> M W B) post :
  (forall a, flag_step q (ev a) = Some q) ->
  (forall a, tracks flag_step q (k a) post) ->
  tracks flag_step q (bind (call op ev) k) post.
Proof.
  intros Hn Hk.
  eapply tracks_bind;
    [ apply stays_call, Hn | | intros e q1 [_ [a E]]; discriminate
    | intros q1 [_ [a E]]; discriminate | intros q1 [_ [a E]]; discriminate ].
  intros a q1 [-> _]. apply Hk.
Qed.

Lemma flag_terminate_last q process worker_id :
  tracks flag_step q (terminate_process os process worker_id)
    (fun r q' => r = Ok tt /\ q' = q).
Proof.
  destruct process as [p |].
  - apply terminate_process_tracked; try reflexivity.
    intros [] E; try discriminate; reflexivity.
  - apply tracks_const. auto.
Qed.

Lemma flag_terminate {B} q process worker_id (k : unit -> M W B) post :
  tracks flag_step q (k tt) post ->
  tracks flag_step q (bind (terminate_process os process worker_id) k) post.
Proof.
  intros Hk.
  eapply tracks_bind;
    [ apply flag_terminate_last | intros [] q1 [_ ->]; exact Hk
    | intros e q1 [E _]; discriminate
    | intros q1 [E _]; discriminate | intros q1 [E _]; discriminate ].
Qed.

Lemma flag_spawn command :
  tracks flag_step Clear (spawn os command) (stays Clear).
Proof.
  unfold spawn, Popen.
  eapply tracks_bind with (mid := stays Clear);
    [ | | intros e q1 H; exact H | intros q1 [_ []] | intros q1 [_ []] ].
  - apply failing_call_stays. reflexivity.
  - intros p q1 [-> _]. apply flag_free; [reflexivity |].
    intros t. apply tracks_const. split; auto; exact I.
Qed.

Lemma flag_ensure_process command worker_id l :
  tracks flag_step Clear (ensure_process os command worker_id l) (stays Clear).
Proof.
  unfold ensure_process. destruct (process l) as [p |]; [| apply flag_spawn].
  apply flag_free; [reflexivity |].
  intros [rc |]; [| apply tracks_const; split; auto; exact I].
  apply flag_free; [reflexivity |]. intros _.
  apply flag_terminate. apply flag_spawn.
Qed.

Lemma flag_read_step worker_id silent timeout p lit :
  tracks flag_step Clear (read_step os worker_id silent timeout p lit)
    (fun r q => q = Idle /\ calm r).
Proof.
  unfold read_step.
  eapply tracks_try with
    (mid := fun (r : res locals) q =>
              q = Idle /\ match r with
                          | Ok _ | Raise (PyException _) | Hang => True
                          | _ => False
                          end);
    [ | | intros l q1 [-> _]; split; auto; exact I
    | intros q1 [-> _]; split; auto; exact I | intros q1 [_ []] ].
  - unfold read_output.
    eapply tracks_bind with
      (mid := fun (r : res string) q =>
                q = Idle /\ match r with
                            | Ok _ | Raise (PyException _) | Hang => True
                            | _ => False
                            end);
      [ | | intros e q1 H; exact H | intros q1 H; exact H | intros q1 [_ []] ].
    + intros s. unfold stdout_readline, bind, call.
      destruct (os_readline os p (world s)) as [[out | e |] w];
        cbn [ret raise hang fst snd hist];
        eexists [EvReadline p _], Idle; cbn; auto.
    + intros output q1 [-> _].
      assert (Done_ : forall l : locals,
                 tracks flag_step Idle (@ret W locals l)
                   (fun (r : res locals) q =>
                      q = Idle /\ match r with
                                  | Ok _ | Raise (PyException _) | Hang => True
                                  | _ => False
                                  end))
        by (intros l; apply tracks_const; auto).
      destruct (nonempty output).
      * eapply tracks_bind with (mid := passes Idle);
          [ | | intros e q1 [_ [a E]]; discriminate
          | intros q1 [_ [a E]]; discriminate
          | intros q1 [_ [a E]]; discriminate ].
        -- destruct silent; cbn [negb when].
           ++ apply tracks_const. split; eauto.
           ++ apply stays_call. reflexivity.
        -- intros [] q1 [-> _]. destruct (contains _ output); [| apply Done_].
           apply flag_free; [reflexivity |]. intros t. apply Done_.
      * apply flag_free; [reflexivity |]. intros [rc |]; [apply Done_ |].
        apply flag_free; [reflexivity |]. intros t.
        destruct (t - lit >? timedelta_minutes timeout); [| apply Done_].
        apply flag_free; [reflexivity |]. intros _.
        apply flag_terminate.
        apply flag_free; [reflexivity |]. intros t'. apply Done_.
  - intros [e |] q1 [-> H]; [| contradiction].
    apply flag_free; [reflexivity |]. intros _.
    apply flag_terminate.
    apply flag_free; [reflexivity |]. intros _.
    apply tracks_const. split; auto; exact I.
Qed.

Lemma flag_worker_loop fuel command worker_id silent timeout : forall l,
  tracks flag_step Idle (worker_loop os fuel command worker_id silent timeout l)
    (fun r q => match r with
                | Ok _ => q = Stopped
                | Raise (PyException _) => q = Clear
                | Hang | OutOfFuel => q = Idle
                | _ => False
                end).
Proof.
  induction fuel as [| k IH]; intros l; cbn [worker_loop].
  - apply tracks_const. reflexivity.
  - eapply tracks_bind with
      (mid := fun (r : res bool) q =>
                match r with
                | Ok b => q = if b then Stopped else Clear
                | _ => False
                end);
      [ | | intros e q1 [] | intros q1 [] | intros q1 [] ].
    + apply tracks_call. intros b. eexists. split; [reflexivity |]. reflexivity.
    + intros [|] q1 ->; [apply tracks_const; reflexivity |].
      eapply tracks_bind with
        (mid := fun (r : res locals) q =>
                  match r with
                  | Ok _ | Hang => q = Idle
                  | Raise (PyException _) => q = Clear
                  | _ => False
                  end);
        [ | intros l' q1 ->; apply IH | intros e q1 H; exact H
        | intros q1 H; exact H | intros q1 [] ].
      unfold iteration.
      eapply tracks_bind;
        [ apply flag_ensure_process | | intros [e |] q1 [-> H]; [reflexivity | contradiction]
        | intros q1 [_ []] | intros q1 [_ []] ].
      intros [p t] q1 [-> _]. cbn [fst snd].
      eapply tracks_weaken; [apply flag_read_step |].
      intros [l' | e | | ] q [-> H]; auto; contradiction.
Qed.

End FlagFacts.

(** X3: a worker checks the flag once per turn, at the start of the turn,
    and acts on it before anything else.  In every run of [run_worker]: a
    spawn and a read happen only in a turn whose check found the flag clear,
    there is at most one read between two checks, and after a check that
    found the flag set the worker neither spawns nor reads again.
    [run_worker] returns only after such a check; it raises only in a turn
    that had found the flag clear and had not read yet (a failed spawn). *)
Theorem worker_checks_flag_every_turn :
  forall (W : Type) (os : OS W) (fuel : nat) (command : string) (worker_id : Z)
         (silent : bool) (timeout : Z) (s : state W),
    let run := run_worker os fuel command worker_id silent timeout s in
    exists q,
      watch flag_step Idle (added s (snd run)) = Some q
      /\ match fst run with
         | Ok _ => q = Stopped
         | Raise _ => q = Clear
         | Hang | OutOfFuel => q = Idle
         end.
Proof.
  intros W os fuel command worker_id silent timeout s run. subst run.
  assert (T : tracks flag_step Idle
                (run_worker os fuel command worker_id silent timeout)
                (fun r q => match r with
                            | Ok _ => q = Stopped
                            | Raise _ => q = Clear
                            | Hang | OutOfFuel => q = Idle
                            end)).
  { unfold run_worker. apply flag_free; [reflexivity |]. intros t0.
    eapply tracks_bind;
      [ apply (flag_worker_loop os fuel command worker_id silent timeout)
      | | intros [e |] q1 H; [exact H | contradiction]
      | intros q1 H; exact H | intros q1 H; exact H ].
    intros l q1 ->. destruct (process l) as [p |];
      [| apply tracks_const; reflexivity].
    apply flag_free; [reflexivity |]. intros _.
    eapply tracks_weaken; [apply flag_terminate_last |].
    intros r q' [-> ->]. reflexivity. }
  destruct (tracks_added s T) as (q & Wq & P). exists q. auto.
Qed.

(** ** The time a stall is measured from *)

Section LivenessFacts.

Context {W : Type}.
Variable os : OS W.
Variables worker_id timeout : Z.

Let step := liveness_step worker_id timeout.

Lemma settled_known l : settled (known l).
Proof. unfold known. destruct (process l); [right; eauto | now left]. Qed.










End LivenessFacts.


(** ** The generations of workers *)

Ltac same_calls :=
  repeat (progress (cbn [app]; rewrite <- ?app_assoc)); reflexivity.

Lemma last_any {A} (l : list A) (a d d' : A) :
  last (a :: l) d = last (a :: l) d'.
Proof.
  revert a. induction l as [| b l IH]; intros a; [reflexivity |].
  change (last (b :: l) d = last (b :: l) d'). apply IH.
Qed.

Lemma last_cons {A} (l : list A) (a d : A) : last (a :: l) d = last l a.
Proof. destruct l as [| b l]; [reflexivity |]. exact (last_any l b d a). Qed.

Lemma Forall_last {A} (P : A -> Prop) (l : list A) (d : A) :
  Forall P (d :: l) -> P (last l d).
Proof.
  revert d. induction l as [| a l IH]; intros d F.
  - now inversion F.
  - rewrite last_cons. apply IH. now inversion F.
Qed.

Lemma idle_cycles args (gens : list (list tid)) :
  Forall (fun g => List.length g = 0%nat) gens ->
  cycles args [] gens = List.concat (repeat idle_turn (List.length gens)).
Proof.
  induction gens as [| g rest IH]; intros F; [reflexivity |].
  inversion F as [| g' rest' L F' ]; subst.
  destruct g; [| discriminate].
  cbn [cycles List.length repeat List.concat]. rewrite (IH F'). reflexivity.
Qed.

Section GenerationFacts.

Context {W : Type}.
Variable rt : Runtime W.

Lemma tidy_eq (s s' : state W) e1 e2 : tidy rt s s' e1 -> e1 = e2 -> tidy rt s s' e2.
Proof. now intros T <-. Qed.

Lemma tidy_sigints (s s' : state W) evs :
  tidy rt s s' evs ->
  Forall (fun e => is_sigint e = true -> e = handled) (added s s').
Proof.
  intros [_ _ (h & E & _ & F)]. unfold added.
  now rewrite E, skipn_app, skipn_all, Nat.sub_diag.
Qed.

Lemma restart_generation threads c sl tm (s : state W) :
  on_sigint s = SignalHandler ->
  exists s',
    (exists nt,
        restart_all_workers rt threads c sl tm s = (Ok nt, s')
        /\ List.length nt = List.length threads
        /\ tidy rt s s'
             ([EvPrint "Restarting all workers..."; EvFlagSet]
                ++ joins threads ++ [EvFlagClear]
                ++ starts c sl tm (range (Z.of_nat (List.length threads))) nt)%list)
    \/ (restart_all_workers rt threads c sl tm s = (Hang, s')
        /\ exists done t rest,
            threads = (done ++ t :: rest)%list
            /\ tidy rt s s' ([EvPrint "Restarting all workers..."; EvFlagSet]
                              ++ joins done ++ [EvThreadJoin t false])%list).
Proof.
  intros H. unfold restart_all_workers.
  destruct (stop_all_workers_tidy rt threads s H)
    as (s1 & [(E1 & T1 & _) | (E1 & done & t & rest & -> & T1)]).
  - destruct (start_workers_tidy rt (range (Z.of_nat (List.length threads)))
                c sl tm [] s1 (tidy_handler T1))
      as (nt & s2 & E2 & L2 & T2).
    exists s2. left. exists nt. rewrite (bind_ok _ _ _ E1). split; [exact E2 |].
    split.
    + rewrite L2. unfold range. now rewrite length_map, length_seq, Nat2Z.id.
    + eapply tidy_eq; [exact (tidy_trans T1 T2) | same_calls].
  - exists s1. right. rewrite (bind_hang _ _ _ E1). split; [reflexivity |].
    exists done, t, rest. split; [reflexivity | exact T1].
Qed.

Lemma main_loop_generations fuel args : forall g (s : state W),
  on_sigint s = SignalHandler ->
  exists gens s',
    Forall (fun g' => List.length g' = List.length g) gens
    /\ ((main_loop rt fuel args g s = (OutOfFuel, s')
         /\ List.length gens = fuel
         /\ tidy rt s s' (cycles args g gens))
        \/ (main_loop rt fuel args g s = (Hang, s')
            /\ (List.length gens < fuel)%nat
            /\ exists done t rest,
                last gens g = (done ++ t :: rest)%list
                /\ tidy rt s s' (cycles args g gens ++ stuck_calls done t)%list)).
Proof.
  induction fuel as [| k IH]; intros g s H.
  - exists [], s. split; [constructor |]. left.
    split; [reflexivity |]. split; [reflexivity |]. apply tidy_refl, H.
  - cbn [main_loop].
    destruct (main_sleep_tidy rt 300 s H) as (s1 & E1 & T1).
    destruct (restart_generation g (command args) (silent args)
                (no_inference_timeout args) s1 (tidy_handler T1))
      as (s2 & [(nt & E2 & L2 & T2) | (E2 & done & t & rest & -> & T2)]).
    + assert (E : interruptible
                    (main_sleep rt 300 ;;
                     restart_all_workers rt g (command args) (silent args)
                       (no_inference_timeout args)) s = (Ok (Some nt), s2)).
      { unfold interruptible. apply try_except_ok.
        erewrite bind_ok; [reflexivity |].
        now rewrite (bind_ok _ _ _ E1). }
      rewrite (bind_ok _ _ _ E).
      destruct (IH nt s2 (tidy_handler T2))
        as (gens & s3 & F & [(E3 & L3 & T3) | (E3 & L3 & done & t & rest & La & T3)]).
      * exists (nt :: gens), s3. split.
        { constructor; [exact L2 |]. now rewrite <- L2. }
        left. split; [exact E3 |]. split; [cbn [List.length]; now rewrite L3 |].
        eapply tidy_eq; [exact (tidy_trans (tidy_trans T1 T2) T3) |].
        cbn [cycles]. same_calls.
      * exists (nt :: gens), s3. split.
        { constructor; [exact L2 |]. now rewrite <- L2. }
        right. split; [exact E3 |]. split; [cbn [List.length]; lia |].
        exists done, t, rest. split; [now rewrite last_cons |].
        eapply tidy_eq; [exact (tidy_trans (tidy_trans T1 T2) T3) |].
        cbn [cycles]. same_calls.
    + assert (E : interruptible
                    (main_sleep rt 300 ;;
                     restart_all_workers rt (done ++ t :: rest) (command args)
                       (silent args) (no_inference_timeout args)) s = (Hang, s2)).
      { unfold interruptible. apply try_except_hang.
        apply bind_hang. rewrite (bind_ok _ _ _ E1). exact E2. }
      rewrite (bind_hang _ _ _ E).
      exists [], s2. split; [constructor |]. right.
      split; [reflexivity |]. split; [cbn [List.length]; lia |].
      exists done, t, rest. split; [reflexivity |].
      eapply tidy_eq; [exact (tidy_trans T1 T2) | reflexivity].
Qed.

Lemma main_startup_tidy args (s : state W) :
  exists threads s',
    main_startup rt args s = (Ok threads, s')
    /\ List.length threads = Z.to_nat (instances args)
    /\ tidy rt s s' (startup_calls args threads).
Proof.
  unfold main_startup.
  destruct (signal_signal_tidy rt s) as (s1 & E1 & T1).
  rewrite (bind_ok _ _ _ E1).
  assert (P : exists s2,
             when (negb (silent args))
               (main_print rt ("Starting " ++ str_of_Z (instances args) ++ " workers")) s1
             = (Ok tt, s2)
             /\ tidy rt s1 s2
                  (if silent args then []
                   else [EvPrint ("Starting " ++ str_of_Z (instances args) ++ " workers")])).
  { destruct (silent args); cbn [negb when].
    - exists s1. split; [reflexivity |]. apply tidy_refl, (tidy_handler T1).
    - apply main_print_tidy, (tidy_handler T1). }
  destruct P as (s2 & E2 & T2). rewrite (bind_ok _ _ _ E2).
  destruct (start_workers_tidy rt (range (instances args)) (command args)
              (silent args) (no_inference_timeout args) [] s2 (tidy_handler T2))
    as (nt & s3 & E3 & L3 & T3).
  exists nt, s3. split; [exact E3 |]. split.
  - rewrite L3. unfold range. now rewrite length_map, length_seq.
  - eapply tidy_eq; [exact (tidy_trans (tidy_trans T1 T2) T3) |].
    unfold startup_calls. same_calls.
Qed.

Lemma main_generations fuel args (s : state W) :
  exists g0 gens s',
    Forall (fun g => List.length g = Z.to_nat (instances args)) (g0 :: gens)
    /\ ((main rt fuel args s = (OutOfFuel, s')
         /\ List.length gens = fuel
         /\ tidy rt s s' (startup_calls args g0 ++ cycles args g0 gens)%list)
        \/ (main rt fuel args s = (Hang, s')
            /\ (List.length gens < fuel)%nat
            /\ exists done t rest,
                last gens g0 = (done ++ t :: rest)%list
                /\ tidy rt s s'
                     (startup_calls args g0 ++ cycles args g0 gens
                        ++ stuck_calls done t)%list)).
Proof.
  unfold main.
  destruct (main_startup_tidy args s) as (g0 & s1 & E1 & L1 & T1).
  rewrite (bind_ok _ _ _ E1).
  destruct (main_loop_generations fuel args g0 s1 (tidy_handler T1))
    as (gens & s2 & F & [(E2 & L2 & T2) | (E2 & L2 & done & t & rest & La & T2)]);
    exists g0, gens, s2; (split; [constructor; [exact L1 | now rewrite <- L1] |]).
  - left. split; [exact E2 |]. split; [exact L2 |]. exact (tidy_trans T1 T2).
  - right. split; [exact E2 |]. split; [exact L2 |].
    exists done, t, rest. split; [exact La |]. exact (tidy_trans T1 T2).
Qed.

End GenerationFacts.

(** X5: [main] runs generation after generation of workers, and nothing
    else.  Whatever the runtime answers and however many SIGINT arrive, the
    calls of [main] are those of the startup followed by those of one restart
    per turn, every generation having as many threads as the first, which
    has [instances] of them (none when [instances] is negative).  Either
    every turn ends, and [main] goes on to the next; or a join never returns
    and [main] stays in it, in the middle of a restart, the flag set.  Every
    SIGINT on the way was answered by [signal_handler], and the calls of the
    [except KeyboardInterrupt] block are never made. *)
Theorem main_runs_generation_after_generation :
  forall (W : Type) (rt : Runtime W) (fuel : nat) (args : arguments) (s : state W),
    let run := main rt fuel args s in
    exists g0 gens,
      Forall (fun g => List.length g = Z.to_nat (instances args)) (g0 :: gens)
      /\ Forall (fun e => is_sigint e = true -> e = handled) (added s (snd run))
      /\ ((fst run = OutOfFuel
           /\ List.length gens = fuel
           /\ own (added s (snd run))
              = (startup_calls args g0 ++ cycles args g0 gens)%list)
          \/ (fst run = Hang
              /\ (List.length gens < fuel)%nat
              /\ exists done t rest,
                  last gens g0 = (done ++ t :: rest)%list
                  /\ own (added s (snd run))
                     = (startup_calls args g0 ++ cycles args g0 gens
                          ++ stuck_calls done t)%list)).
Proof.
  intros W rt fuel args s run. subst run.
  destruct (main_generations rt fuel args s)
    as (g0 & gens & s' & F & [(E & L & T) | (E & L & done & t & rest & La & T)]);
    exists g0, gens; rewrite E; cbn [fst snd];
    (split; [exact F |]); (split; [exact (tidy_sigints T) |]).
  - left. split; [reflexivity |]. split; [exact L |]. exact (tidy_added T).
  - right. split; [reflexivity |]. split; [exact L |].
    exists done, t, rest. split; [exact La |]. exact (tidy_added T).
Qed.

(** X6: with no instance to run ([instances] zero or negative, which
    [argparse] accepts) [main] starts no thread and joins none, so nothing
    can hold it: every five minutes it prints that it restarts all workers,
    sets the flag and clears it, for ever. *)
Theorem main_with_no_worker_idles :
  forall (W : Type) (rt : Runtime W) (fuel : nat) (args : arguments) (s : state W),
    instances args <= 0 ->
    let run := main rt fuel args s in
    fst run = OutOfFuel
    /\ own (added s (snd run))
       = (EvSignalInstall SignalHandler
            :: (if silent args then []
                else [EvPrint ("Starting " ++ str_of_Z (instances args) ++ " workers")])
            ++ List.concat (repeat idle_turn fuel))%list.
Proof.
  intros W rt fuel args s N run. subst run.
  assert (Z0 : Z.to_nat (instances args) = 0%nat) by lia.
  destruct (main_generations rt fuel args s)
    as (g0 & gens & s' & F & [(E & L & T) | (E & L & done & t & rest & La & T)]);
    rewrite Z0 in F.
  - rewrite E. cbn [fst snd]. split; [reflexivity |].
    rewrite (tidy_added T).
    inversion F as [| g l L0 F']; subst g l.
    destruct g0; [| discriminate].
    rewrite (idle_cycles args F'), L. unfold startup_calls, starts.
    rewrite combine_nil. cbn [flat_map]. same_calls.
  - pose proof (@Forall_last _ _ gens g0 F) as L0. cbn beta in L0.
    rewrite La, length_app in L0. cbn [List.length] in L0. lia.
Qed.

Lemma main_with_no_worker_idles_witness :
  instances no_worker_args <= 0
  /\ fst (main Sim 2 no_worker_args (fleet_boot [])) = OutOfFuel
  /\ own (added (fleet_boot []) (snd (main Sim 2 no_worker_args (fleet_boot []))))
     = [EvSignalInstall SignalHandler; EvPrint "Starting 0 workers";
        EvSleep 300; EvPrint "Restarting all workers..."; EvFlagSet; EvFlagClear;
        EvSleep 300; EvPrint "Restarting all workers..."; EvFlagSet; EvFlagClear].
Proof.
  split; [vm_compute; discriminate |].
  exact (main_with_no_worker_idles Sim 2 no_worker_args (fleet_boot [])
           ltac:(vm_compute; discriminate)).
Defined.
